(** * Shiroya Send signaling worker: rooms, peers and message routing

    A shallow embedding of [src/worker/signaling-worker.js] and the proofs of
    its membership, admission and delivery properties.

    Conventions of the embedding.
    - A JavaScript string is a Rocq [string], one [ascii] per code unit
      (code units below 256).
    - A connection object ([peer] in [fetch]) is identified by its [id], the
      value of [crypto.randomUUID()], which is taken to be fresh and
      non-empty.  The objects live in a store [peers : gmap string Peer];
      a room's [Map] from id to peer object holds references into that
      store, so it is the list of its keys in insertion order.
    - A room object is referred to by the key under which the global
      [rooms] map holds it.
    - [socket.send] appends to a wire log; on a socket that is no longer
      open it throws, which is what the [try]/[catch] of [broadcast] is
      there for. *)

From Stdlib Require Import Ascii.
From stdpp Require Import base option list strings gmap.

Local Open Scope string_scope.
Local Open Scope list_scope.

(** ** Values of the message fields the worker inspects *)

(** The fields [type], [roomId], [roomKeyHash], [rtcSupported] and [to] of a
    decoded message: absent ([undefined]), [null], a boolean or a string. *)
Inductive JsVal :=
  | JUndefined
  | JNull
  | JBool (b : bool)
  | JStr (s : string).

#[global] Instance JsVal_eq_dec : EqDecision JsVal.
Proof. solve_decision. Defined.

(** JavaScript truthiness. *)
Definition truthy (v : JsVal) : bool :=
  match v with
  | JUndefined | JNull => false
  | JBool b => b
  | JStr s => negb (String.eqb s "")
  end.

(** [a || b]. *)
Definition js_or (a b : JsVal) : JsVal := if truthy a then a else b.

(** [String(v)]. *)
Definition ToString (v : JsVal) : string :=
  match v with
  | JUndefined => "undefined"
  | JNull => "null"
  | JBool true => "true"
  | JBool false => "false"
  | JStr s => s
  end.

(** White space and line terminators removed by [String.prototype.trim]
    among the code units below 256: TAB, LF, VT, FF, CR, SP, NBSP. *)
Definition isWhite (a : ascii) : bool :=
  let n := nat_of_ascii a in
  (Nat.leb 9 n && Nat.leb n 13) || Nat.eqb n 32 || Nat.eqb n 160.

Fixpoint trimStart (s : string) : string :=
  match s with
  | EmptyString => EmptyString
  | String a rest => if isWhite a then trimStart rest else s
  end.

Fixpoint trimEnd (s : string) : string :=
  match s with
  | EmptyString => EmptyString
  | String a rest =>
      match trimEnd rest with
      | EmptyString => if isWhite a then EmptyString else String a EmptyString
      | t => String a t
      end
  end.

Definition trim (s : string) : string := trimEnd (trimStart s).

(** Truthiness of a string, and of a string-or-null. *)
Definition nonEmpty (s : string) : bool := negb (String.eqb s "").

Definition optTruthy (o : option string) : bool :=
  match o with
  | Some s => nonEmpty s
  | None => false
  end.

(** ** Data model *)

(** The result of [randomName()]. *)
Record Name := mkName {
  displayName : string;
  deviceName : string;
  deviceType : string
}.

Inductive ReadyState := SockOpen | SockClosed.

(** The [peer] object built in [fetch]; its [id] is its key in the store. *)
Record Peer := mkPeer {
  socket : ReadyState;
  p_roomId : option string;
  p_roomKeyHash : string;
  p_name : Name;
  p_rtcSupported : bool
}.

(** A room: [{ keyHash, peers: new Map() }]. *)
Record Room := mkRoom {
  keyHash : string;
  r_peers : list string
}.

(** The value of [asPeerInfo(peer)]. *)
Record PeerInfo := mkPeerInfo {
  i_id : string;
  i_rtcSupported : bool;
  i_name : Name
}.

(** An opaque negotiation payload ([sdp] or [ice]), by its JSON text. *)
Definition Payload := string.

(** Outbound messages, before [JSON.stringify]. *)
Inductive OutMsg :=
  | Welcome (peerId roomId : string) (peers : list PeerInfo)
            (dispName devName : string)
  | PeerJoined (peer : PeerInfo)
  | PeerLeft (peerId : string)
  | Signal (sender : string) (sdp ice : option Payload)
  | RoomKeyMismatch
  | ErrorMsg (message : string).

(** A decoded inbound message. *)
Record Msg := mkMsg {
  m_type : JsVal;
  m_roomId : JsVal;
  m_roomKeyHash : JsVal;
  m_rtcSupported : JsVal;
  m_to : JsVal;
  m_sdp : option Payload;
  m_ice : option Payload
}.

(** One call of [socket.send]: the socket's owner, the message, and whether
    the call went through ([true]) or threw ([false]). *)
Record SendEvent := mkSend {
  s_to : string;
  s_msg : OutMsg;
  s_ok : bool
}.

(** The worker's state: the connection objects, the global [rooms] map and
    the log of sends. *)
Record State := mkState {
  peers : gmap string Peer;
  rooms : gmap string Room;
  wire : list SendEvent
}.

#[global] Instance Name_eq_dec : EqDecision Name.
Proof. solve_decision. Defined.
#[global] Instance ReadyState_eq_dec : EqDecision ReadyState.
Proof. solve_decision. Defined.
#[global] Instance Peer_eq_dec : EqDecision Peer.
Proof. solve_decision. Defined.
#[global] Instance Room_eq_dec : EqDecision Room.
Proof. solve_decision. Defined.
#[global] Instance PeerInfo_eq_dec : EqDecision PeerInfo.
Proof. solve_decision. Defined.
#[global] Instance OutMsg_eq_dec : EqDecision OutMsg.
Proof. solve_decision. Defined.
#[global] Instance SendEvent_eq_dec : EqDecision SendEvent.
Proof. solve_decision. Defined.

Definition init : State := mkState ∅ ∅ [].

Definition noName : Name := mkName "" "" "".

(** The fields a connection object starts with. *)
Definition newPeer (n : Name) : Peer := mkPeer SockOpen None "" n true.

(** Dereferencing a peer reference. *)
Definition getPeer (st : State) (pid : string) : Peer :=
  default (newPeer noName) (peers st !! pid).

Definition isOpen (st : State) (pid : string) : bool :=
  match socket (getPeer st pid) with
  | SockOpen => true
  | SockClosed => false
  end.

(** ** Computations that mutate the state and may throw *)

Inductive Completion (A : Type) :=
  | Normal (a : A)
  | Throw.
Arguments Normal {A} a.
Arguments Throw {A}.

Definition Js (A : Type) : Type := State -> Completion A * State.

Definition ret {A} (a : A) : Js A := fun st => (Normal a, st).

Definition throw {A} : Js A := fun st => (Throw, st).

Definition bind {A B} (m : Js A) (k : A -> Js B) : Js B :=
  fun st =>
    match m st with
    | (Normal a, st') => k a st'
    | (Throw, st') => (Throw, st')
    end.

(** [try { m } catch (_) { h }]. *)
Definition tryCatch {A} (m : Js A) (h : Js A) : Js A :=
  fun st =>
    match m st with
    | (Normal a, st') => (Normal a, st')
    | (Throw, st') => h st'
    end.

Definition gets {A} (f : State -> A) : Js A := fun st => (Normal (f st), st).

Definition modify (f : State -> State) : Js unit := fun st => (Normal tt, f st).

Declare Scope js_scope.
Delimit Scope js_scope with js.
Notation "'let!' x ':=' m 'in' k" := (bind m (fun x => k))
  (at level 10, x name, m at level 100, k at level 200) : js_scope.
Notation "m ';;' k" := (bind m (fun _ => k))
  (at level 100, k at level 200, right associativity) : js_scope.
Local Open Scope js_scope.

(** The state a computation leaves behind, and how it completed. *)
Definition exec {A} (m : Js A) (st : State) : State := snd (m st).
Definition completion {A} (m : Js A) (st : State) : Completion A := fst (m st).

(** State updates. *)
Definition setPeers (f : gmap string Peer -> gmap string Peer) (st : State) : State :=
  mkState (f (peers st)) (rooms st) (wire st).

Definition setRooms (f : gmap string Room -> gmap string Room) (st : State) : State :=
  mkState (peers st) (f (rooms st)) (wire st).

Definition logSend (e : SendEvent) (st : State) : State :=
  mkState (peers st) (rooms st) (wire st ++ [e]).

(** In-place update of the fields of a peer object. *)
Definition updPeer (pid : string) (f : Peer -> Peer) (st : State) : State :=
  setPeers (insert pid (f (getPeer st pid))) st.

Definition withRoomId (r : option string) (p : Peer) : Peer :=
  mkPeer (socket p) r (p_roomKeyHash p) (p_name p) (p_rtcSupported p).

Definition withSocket (s : ReadyState) (p : Peer) : Peer :=
  mkPeer s (p_roomId p) (p_roomKeyHash p) (p_name p) (p_rtcSupported p).

(** In-place update of a room object held in [rooms]. *)
Definition updRoom (rid : string) (f : Room -> Room) (st : State) : State :=
  setRooms (alter f rid) st.

(** ** The worker *)

(** [peer.socket.send(JSON.stringify(m))]. *)
Definition send (pid : string) (m : OutMsg) : Js unit :=
  fun st =>
    if isOpen st pid
    then (Normal tt, logSend (mkSend pid m true) st)
    else (Throw, logSend (mkSend pid m false) st).

Fixpoint forEach (ids : list string) (body : string -> Js unit) : Js unit :=
  match ids with
  | [] => ret tt
  | pid :: rest => body pid ;; forEach rest body
  end.

(** [broadcast(room, payload, exceptId = null)]. *)
Definition broadcast (room : Room) (payload : OutMsg) (exceptId : option string)
  : Js unit :=
  forEach (r_peers room) (fun pid =>
    if optTruthy exceptId && bool_decide (Some pid = exceptId) then ret tt
    else tryCatch (send pid payload) (ret tt)).

(** [asPeerInfo(peer)]. *)
Definition asPeerInfo (st : State) (pid : string) : PeerInfo :=
  let p := getPeer st pid in
  mkPeerInfo pid (p_rtcSupported p) (p_name p).

(** [room.peers.delete(id)] and [room.peers.set(id, peer)] on the key list. *)
Definition peersDelete (pid : string) (l : list string) : list string :=
  filter (fun x => x ≠ pid) l.

Definition peersSet (pid : string) (l : list string) : list string :=
  if bool_decide (pid ∈ l) then l else l ++ [pid].

(** [leaveRoom(peer)]. *)
Definition leaveRoom (pid : string) : Js unit :=
  let! peer := gets (fun st => getPeer st pid) in
  match p_roomId peer with
  | None => ret tt
  | Some rid =>
      if negb (nonEmpty rid) then ret tt else
      let! found := gets (fun st => rooms st !! rid) in
      match found with
      | None => ret tt
      | Some room =>
          let room' := mkRoom (keyHash room) (peersDelete pid (r_peers room)) in
          modify (setRooms (insert rid room')) ;;
          broadcast room' (PeerLeft pid) (Some pid) ;;
          (if Nat.eqb (length (r_peers room')) 0
           then modify (setRooms (delete rid)) else ret tt) ;;
          modify (updPeer pid (withRoomId None))
      end
  end.

(** [getOrCreateRoom(roomId, keyHash)]. *)
Definition getOrCreateRoom (roomId key : string) : Js Room :=
  fun st =>
    match rooms st !! roomId with
    | Some room => (Normal room, st)
    | None =>
        let room := mkRoom key [] in
        (Normal room, setRooms (insert roomId room) st)
    end.

(** The room id and the key a [join] message asks for. *)
Definition joinTarget (msg : Msg) : string :=
  trim (ToString (js_or (m_roomId msg) (JStr ""))).

Definition joinKey (msg : Msg) : string :=
  ToString (js_or (m_roomKeyHash msg) (JStr "")).

(** [msg.rtcSupported !== false]. *)
Definition joinRtc (msg : Msg) : bool :=
  negb (bool_decide (m_rtcSupported msg = JBool false)).

(** [joinRoom(peer, msg)]. *)
Definition joinRoom (pid : string) (msg : Msg) : Js unit :=
  let roomId := joinTarget msg in
  if negb (nonEmpty roomId) then ret tt else
  let key := joinKey msg in
  let! room := getOrCreateRoom roomId key in
  if nonEmpty (keyHash room) && negb (String.eqb key (keyHash room)) then
    send pid RoomKeyMismatch
  else
    (if negb (nonEmpty (keyHash room)) && nonEmpty key
     then modify (updRoom roomId (fun r => mkRoom key (r_peers r)))
     else ret tt) ;;
    let! peer := gets (fun st => getPeer st pid) in
    (if optTruthy (p_roomId peer) && negb (bool_decide (p_roomId peer = Some roomId))
     then leaveRoom pid else ret tt) ;;
    modify (updPeer pid (fun p =>
      mkPeer (socket p) (Some roomId) key (p_name p) (joinRtc msg))) ;;
    modify (updRoom roomId (fun r => mkRoom (keyHash r) (peersSet pid (r_peers r)))) ;;
    (* [room] is still the object held under [roomId]: the leave above
       deletes no other key than the one of the room left *)
    let! room := gets (fun st => default (mkRoom key []) (rooms st !! roomId)) in
    let! roster := gets (fun st =>
      map (asPeerInfo st) (filter (fun x => x ≠ pid) (r_peers room))) in
    let! me := gets (fun st => getPeer st pid) in
    send pid (Welcome pid roomId roster
                (displayName (p_name me)) (deviceName (p_name me))) ;;
    let! info := gets (fun st => asPeerInfo st pid) in
    broadcast room (PeerJoined info) (Some pid).

(** [relaySignal(peer, msg)]. *)
Definition relaySignal (pid : string) (msg : Msg) : Js unit :=
  let! peer := gets (fun st => getPeer st pid) in
  if negb (optTruthy (p_roomId peer)) then ret tt else
  let! found := gets (fun st => rooms st !! default "" (p_roomId peer)) in
  match found with
  | None => ret tt
  | Some room =>
      match m_to msg with
      | JStr target =>
          if bool_decide (target ∈ r_peers room)
          then send target (Signal pid (m_sdp msg) (m_ice msg))
          else ret tt
      | _ => ret tt
      end
  end.

(** [onMessage(peer, msg)]. *)
Definition onMessage (pid : string) (msg : Msg) : Js unit :=
  match m_type msg with
  | JStr t =>
      if String.eqb t "join" then joinRoom pid msg
      else if String.eqb t "signal" then relaySignal pid msg
      else if String.eqb t "disconnect" then leaveRoom pid
      else if String.eqb t "pong" then ret tt
      else ret tt
  | _ => ret tt
  end.

(** What arrives in [event.data], by what [JSON.parse] makes of it: it
    throws, it yields [null], or it yields a message object. *)
Inductive Frame :=
  | Undecodable
  | DecodedNull
  | Decoded (msg : Msg).

Definition JSON_parse (f : Frame) : Js (option Msg) :=
  match f with
  | Undecodable => throw
  | DecodedNull => ret None
  | Decoded msg => ret (Some msg)
  end.

(** The ['message'] listener installed by [fetch]. *)
Definition onSocketMessage (pid : string) (f : Frame) : Js unit :=
  tryCatch
    (let! msg := JSON_parse f in
     match msg with
     | None => throw
     | Some m => onMessage pid m
     end)
    (send pid (ErrorMsg "Invalid JSON message")).

(** The ['close'] and ['error'] listeners installed by [fetch]. *)
Definition onSocketClose (pid : string) : Js unit := leaveRoom pid.
Definition onSocketError (pid : string) : Js unit := leaveRoom pid.

(** [randomName()], the three draws of [Math.random] given as indices. *)
Definition devices : list string := ["Desktop"; "Mobile"; "Tablet"].
Definition adjectives : list string := ["Swift"; "Bright"; "Silent"; "Azure"; "Rapid"].
Definition nouns : list string := ["Otter"; "Falcon"; "Panda"; "Lynx"; "Fox"].

Definition randomName (ra rn rd : nat) : Name :=
  let dn := nth ra adjectives "undefined" +:+ "-" +:+ nth rn nouns "undefined" in
  mkName dn (dn +:+ " " +:+ nth rd devices "undefined") "desktop".

(** What [fetch] answers. *)
Inductive Response :=
  | Running200
  | Switching101.

(** [fetch(request)]: [upgrade] is the request's [Upgrade] header, [pid] the
    value of [crypto.randomUUID()]. *)
Definition fetch (upgrade : option string) (pid : string) (ra rn rd : nat)
  : State -> Response * State :=
  fun st =>
    if bool_decide (upgrade = Some "websocket")
    then (Switching101, setPeers (insert pid (newPeer (randomName ra rn rd))) st)
    else (Running200, st).

(** ** The event loop

    One event is handled to completion before the next.  [EvStale] is the
    transport closing a socket whose ['close'] listener has not run yet. *)
Inductive Event :=
  | EvConnect (pid : string) (ra rn rd : nat)
  | EvMessage (pid : string) (f : Frame)
  | EvClose (pid : string)
  | EvError (pid : string)
  | EvStale (pid : string).

Definition handle (e : Event) (st : State) : State :=
  match e with
  | EvConnect pid ra rn rd => snd (fetch (Some "websocket") pid ra rn rd st)
  | EvMessage pid f => exec (onSocketMessage pid f) st
  | EvClose pid => exec (onSocketClose pid) st
  | EvError pid => exec (onSocketError pid) st
  | EvStale pid => updPeer pid (withSocket SockClosed) st
  end.

(** An event can occur: a new connection gets a fresh, non-empty id and
    [Math.random] stays below 1; the other events concern a connection
    that exists. *)
Definition enabled (e : Event) (st : State) : bool :=
  match e with
  | EvConnect pid ra rn rd =>
      nonEmpty pid && bool_decide (peers st !! pid = None)
      && Nat.ltb ra 5 && Nat.ltb rn 5 && Nat.ltb rd 3
  | EvMessage pid _ | EvClose pid | EvError pid | EvStale pid =>
      bool_decide (is_Some (peers st !! pid))
  end.

Inductive reachable : State -> Prop :=
  | reachable_init : reachable init
  | reachable_step st e :
      reachable st -> enabled e st = true -> reachable (handle e st).

(** Running a list of events from a state; [None] if one cannot occur. *)
Fixpoint run (evs : list Event) (st : State) : option State :=
  match evs with
  | [] => Some st
  | e :: rest => if enabled e st then run rest (handle e st) else None
  end.

(** Messages of the protocol. *)
Definition joinMsg (roomId key : string) : Msg :=
  mkMsg (JStr "join") (JStr roomId) (JStr key) JUndefined JUndefined None None.

Definition signalMsg (target : string) (sdp ice : option Payload) : Msg :=
  mkMsg (JStr "signal") JUndefined JUndefined JUndefined (JStr target) sdp ice.

Definition disconnectMsg : Msg :=
  mkMsg (JStr "disconnect") JUndefined JUndefined JUndefined JUndefined None None.

(** * Vocabulary of the statements

    Closed forms of what the handlers do, the invariant, and the scenarios
    the statements are tried on. *)

(** The members a broadcast addresses. *)
Definition recipients (exceptId : option string) (l : list string) : list string :=
  match exceptId with
  | Some x => if nonEmpty x then filter (fun pid => pid ≠ x) l else l
  | None => l
  end.

(** One send of [payload] to each of [l], in order, each going through or
    not with the state of its own socket. *)
Definition fanout (st : State) (payload : OutMsg) (l : list string) : list SendEvent :=
  map (fun pid => mkSend pid payload (isOpen st pid)) l.

(** The state with the sends [es] added to the log, peers and rooms as
    they were. *)
Definition addWire (es : list SendEvent) (st : State) : State :=
  mkState (peers st) (rooms st) (wire st ++ es).

(** The state after [peer] has left the room [room] held under [rid]. *)
Definition leftState (pid rid : string) (room : Room) (st : State) : State :=
  let rest := peersDelete pid (r_peers room) in
  mkState (<[pid := withRoomId None (getPeer st pid)]> (peers st))
          (if decide (rest = []) then delete rid (rooms st)
           else <[rid := mkRoom (keyHash room) rest]> (rooms st))
          (wire st ++ fanout st (PeerLeft pid) rest).

(** The key check of [joinRoom] turns the request down. *)
Definition rejects (rid key : string) (st : State) : bool :=
  match rooms st !! rid with
  | Some room => nonEmpty (keyHash room) && negb (String.eqb key (keyHash room))
  | None => false
  end.

(** After [getOrCreateRoom] and the adoption of the key. *)
Definition resolved (rid key : string) (st : State) : State :=
  match rooms st !! rid with
  | None => setRooms (insert rid (mkRoom key [])) st
  | Some room =>
      if negb (nonEmpty (keyHash room)) && nonEmpty key
      then updRoom rid (fun r => mkRoom key (r_peers r)) st
      else st
  end.

(** After the leave of the room the peer was in, when it is another one. *)
Definition vacate (pid rid : string) (st : State) : State :=
  if optTruthy (p_roomId (getPeer st pid))
     && negb (bool_decide (p_roomId (getPeer st pid) = Some rid))
  then exec (leaveRoom pid) st else st.

(** After the peer's fields are set and it is put in the room's map. *)
Definition enter (pid rid key : string) (rtc : bool) (st : State) : State :=
  updRoom rid (fun r => mkRoom (keyHash r) (peersSet pid (r_peers r)))
    (updPeer pid (fun p => mkPeer (socket p) (Some rid) key (p_name p) rtc) st).

(** The members of a room, none if there is no such room. *)
Definition members (st : State) (rid : string) : list string :=
  match rooms st !! rid with
  | Some room => r_peers room
  | None => []
  end.

(** The welcome a peer gets in the state [st] it has entered the room in. *)
Definition welcomeOf (pid rid : string) (st : State) : OutMsg :=
  Welcome pid rid
    (map (asPeerInfo st) (filter (fun x => x ≠ pid) (members st rid)))
    (displayName (p_name (getPeer st pid)))
    (deviceName (p_name (getPeer st pid))).

(** The welcome and the peer-joined notices. *)
Definition greet (pid rid : string) (st : State) : Completion unit * State :=
  if isOpen st pid
  then (Normal tt,
        addWire (mkSend pid (welcomeOf pid rid st) true
                 :: fanout st (PeerJoined (asPeerInfo st pid))
                      (recipients (Some pid) (members st rid))) st)
  else (Throw, addWire [mkSend pid (welcomeOf pid rid st) false] st).

(** Rooms and peers agree on who is where, member maps have unique keys,
    ids are non-empty, and no room is empty, except possibly the room
    [hole] (the room a join operation has created and not yet filled). *)
Record InvBut (hole : option string) (st : State) : Prop := mkInv {
  inv_ids : forall pid p, peers st !! pid = Some p -> pid ≠ "";
  inv_rid : forall rid room, rooms st !! rid = Some room -> rid ≠ "";
  inv_nonempty : forall rid room,
    rooms st !! rid = Some room -> Some rid ≠ hole -> r_peers room ≠ [];
  inv_nodup : forall rid room, rooms st !! rid = Some room -> NoDup (r_peers room);
  inv_member : forall rid room m,
    rooms st !! rid = Some room -> m ∈ r_peers room ->
    exists p, peers st !! m = Some p /\ p_roomId p = Some rid;
  inv_joined : forall pid p rid,
    peers st !! pid = Some p -> p_roomId p = Some rid ->
    exists room, rooms st !! rid = Some room /\ pid ∈ r_peers room
}.

Definition Inv : State -> Prop := InvBut None.

(** A scenario: A and B are in R1 (secret k1), C is alone in R2 (secret
    k2). *)
Definition demoEvents : list Event :=
  [ EvConnect "A" 0 0 0; EvConnect "B" 1 1 1; EvConnect "C" 2 2 2;
    EvMessage "A" (Decoded (joinMsg "R1" "k1"));
    EvMessage "B" (Decoded (joinMsg " R1 " "k1"));
    EvMessage "C" (Decoded (joinMsg "R2" "k2")) ].

Definition demo : State := default init (run demoEvents init).

(** The admission secret of a room of the registry. *)
Definition keyOf (st : State) (rid : string) : option string :=
  keyHash <$> rooms st !! rid.

(** The room [rid] is in the registry after each of the events [evs]. *)
Fixpoint alive (rid : string) (evs : list Event) (st : State) : Prop :=
  match evs with
  | [] => True
  | e :: rest => is_Some (rooms (handle e st) !! rid) /\ alive rid rest (handle e st)
  end.

(** The state after the events [evs], one after the other. *)
Definition handleAll (evs : list Event) (st : State) : State :=
  foldl (fun s e => handle e s) st evs.

(** The scenario with the socket of B closed and its ['close'] listener not
    yet run. *)
Definition staleEvents : list Event := demoEvents ++ [EvStale "B"].

Definition staleDemo : State := default init (run staleEvents init).

(** The error notice of the ['message'] listener. *)
Definition invalidJson : OutMsg := ErrorMsg "Invalid JSON message".

(** Every code unit of the string is removed by [trim]. *)
Fixpoint allWhite (s : string) : bool :=
  match s with
  | EmptyString => true
  | String a rest => isWhite a && allWhite rest
  end.

(** The members of the room a peer is in, none if it is in no room. *)
Definition ownRoom (st : State) (pid : string) : list string :=
  match p_roomId (getPeer st pid) with
  | Some rid => members st rid
  | None => []
  end.

(** The sends of an accepted join: the peer-left notices to the room left,
    the welcome, and the peer-joined notices, which go out only if the
    welcome went through. *)
Definition joinSends (st : State) (pid : string) (msg : Msg) : list SendEvent :=
  let rid := joinTarget msg in
  let p := getPeer st pid in
  let others := filter (fun m => m ≠ pid) (members st rid) in
  (if optTruthy (p_roomId p) && negb (bool_decide (p_roomId p = Some rid))
   then fanout st (PeerLeft pid) (filter (fun m => m ≠ pid) (ownRoom st pid))
   else [])
  ++ mkSend pid
       (Welcome pid rid (map (asPeerInfo st) others)
          (displayName (p_name p)) (deviceName (p_name p)))
       (isOpen st pid)
  :: (if isOpen st pid
      then fanout st (PeerJoined (mkPeerInfo pid (joinRtc msg) (p_name p))) others
      else []).

(** A string that [trimStart] leaves alone: empty, or not starting with
    white space. *)
Definition headOk (s : string) : bool :=
  match s with
  | EmptyString => true
  | String a _ => negb (isWhite a)
  end.

(** Every member's recorded key is the secret of its room, or empty. *)
Definition KeyInv (st : State) : Prop :=
  forall pid p rid room,
    peers st !! pid = Some p -> p_roomId p = Some rid ->
    rooms st !! rid = Some room ->
    p_roomKeyHash p = keyHash room \/ p_roomKeyHash p = "".


(** A message that names [pid] as the peer it is about: its departure, its
    arrival, or a signal from it. *)
Definition aboutPeer (pid : string) (m : OutMsg) : Prop :=
  match m with
  | PeerLeft x => x = pid
  | PeerJoined info => i_id info = pid
  | Signal sender _ _ => sender = pid
  | _ => False
  end.

(** The peers [pids] send the same join message one after the other. *)
Definition joinAll (pids : list string) (msg : Msg) (st : State) : State :=
  foldl (fun s q => exec (joinRoom q msg) s) st pids.

(** * Properties *)

(** ** What a broadcast and a leave do, in closed form *)

Lemma addWire_nil st : addWire [] st = st.
Proof. destruct st; unfold addWire; simpl. by rewrite app_nil_r. Qed.

Lemma addWire_app es1 es2 st : addWire es2 (addWire es1 st) = addWire (es1 ++ es2) st.
Proof. unfold addWire; simpl. by rewrite app_assoc. Qed.

Lemma nonEmpty_true s : nonEmpty s = true <-> s ≠ "".
Proof.
  unfold nonEmpty. destruct (String.eqb_spec s ""); simpl; split; try done.
Qed.

Lemma nonEmpty_false s : nonEmpty s = false <-> s = "".
Proof.
  unfold nonEmpty. destruct (String.eqb_spec s ""); simpl; split; try done.
Qed.


Lemma send_eq pid m st :
  send pid m st =
    ((if isOpen st pid then Normal tt else Throw),
     addWire [mkSend pid m (isOpen st pid)] st).
Proof. unfold send. by destruct (isOpen st pid). Qed.

Lemma fanout_addWire es st payload l :
  fanout (addWire es st) payload l = fanout st payload l.
Proof. done. Qed.


Lemma recipients_cons ex a l :
  recipients ex (a :: l) =
    if optTruthy ex && bool_decide (Some a = ex)
    then recipients ex l else a :: recipients ex l.
Proof.
  destruct ex as [x|]; simpl; [|done].
  destruct (nonEmpty x) eqn:Hx; simpl; [|done].
  rewrite filter_cons.
  destruct (decide (a ≠ x)) as [Hne|Heq].
  - rewrite bool_decide_eq_false_2; [done | congruence].
  - rewrite bool_decide_eq_true_2; [done |].
    f_equal. by destruct (decide (a = x)).
Qed.

Lemma broadcast_eq room payload ex st :
  broadcast room payload ex st
  = (Normal tt, addWire (fanout st payload (recipients ex (r_peers room))) st).
Proof.
  unfold broadcast. generalize (r_peers room) as l. intros l. revert st.
  induction l as [|a l IH]; intros st.
  - simpl. unfold ret. f_equal. destruct ex as [x|]; simpl;
      [destruct (nonEmpty x)|]; by rewrite ?filter_nil, addWire_nil.
  - rewrite recipients_cons. cbn [forEach]. unfold bind at 1.
    destruct (optTruthy ex && bool_decide (Some a = ex)).
    + unfold ret at 1. apply IH.
    + unfold tryCatch. rewrite send_eq.
      destruct (isOpen st a) eqn:Ho; unfold ret at 1; rewrite IH;
        rewrite addWire_app, fanout_addWire; unfold fanout at 2;
        cbn [map]; by rewrite Ho.
Qed.

Lemma recipients_peersDelete pid l :
  recipients (Some pid) (peersDelete pid l) = peersDelete pid l.
Proof.
  unfold recipients, peersDelete. destruct (nonEmpty pid); [|done].
  induction l as [|a l IH]; [done|].
  rewrite filter_cons. destruct (decide (a ≠ pid)); [|done].
  rewrite filter_cons. destruct (decide (a ≠ pid)); [|done].
  by rewrite IH.
Qed.

Lemma leaveRoom_joined pid rid room st :
  p_roomId (getPeer st pid) = Some rid ->
  rid ≠ "" ->
  rooms st !! rid = Some room ->
  leaveRoom pid st = (Normal tt, leftState pid rid room st).
Proof.
  intros Hr Hne Hroom. unfold leaveRoom.
  unfold bind at 1, gets at 1. rewrite Hr.
  apply nonEmpty_true in Hne. rewrite Hne. cbn [negb].
  unfold bind at 1, gets at 1. rewrite Hroom.
  unfold bind at 1, modify at 1.
  unfold bind at 1. rewrite broadcast_eq. cbn [r_peers].
  rewrite recipients_peersDelete.
  unfold leftState. cbn zeta.
  destruct (peersDelete pid (r_peers room)) as [|b rest] eqn:Hrest.
  - cbn [length Nat.eqb]. unfold bind, modify. cbn.
    rewrite decide_True by done.
    unfold updPeer, setPeers, setRooms, addWire, getPeer. cbn.
    by rewrite delete_insert_eq.
  - cbn [length Nat.eqb]. unfold bind, ret, modify. cbn.
    rewrite decide_False by done. done.
Qed.

Lemma leaveRoom_unjoined pid st :
  p_roomId (getPeer st pid) = None ->
  leaveRoom pid st = (Normal tt, st).
Proof.
  intros Hr. unfold leaveRoom, bind at 1, gets at 1. by rewrite Hr.
Qed.

Lemma leaveRoom_normal pid st : completion (leaveRoom pid) st = Normal tt.
Proof.
  unfold completion.
  destruct (p_roomId (getPeer st pid)) as [rid|] eqn:Hr;
    [|by rewrite leaveRoom_unjoined].
  destruct (decide (rid = "")) as [->|Hne].
  { unfold leaveRoom, bind at 1, gets at 1. by rewrite Hr. }
  destruct (rooms st !! rid) as [room|] eqn:Hroom.
  - by rewrite (leaveRoom_joined _ _ _ _ Hr Hne Hroom).
  - unfold leaveRoom, bind at 1, gets at 1. rewrite Hr.
    apply nonEmpty_true in Hne. rewrite Hne. cbn [negb].
    unfold bind at 1, gets at 1. by rewrite Hroom.
Qed.

Lemma leaveRoom_cases pid st :
  leaveRoom pid st = (Normal tt, st) \/
  exists rid room,
    p_roomId (getPeer st pid) = Some rid /\ rid ≠ "" /\
    rooms st !! rid = Some room /\
    leaveRoom pid st = (Normal tt, leftState pid rid room st).
Proof.
  destruct (p_roomId (getPeer st pid)) as [rid|] eqn:Hr;
    [|left; by apply leaveRoom_unjoined].
  destruct (decide (rid = "")) as [->|Hne].
  { left. unfold leaveRoom, bind at 1, gets at 1. by rewrite Hr. }
  destruct (rooms st !! rid) as [room|] eqn:Hroom.
  - right. exists rid, room. eauto using leaveRoom_joined.
  - left. unfold leaveRoom, bind at 1, gets at 1. rewrite Hr.
    apply nonEmpty_true in Hne. rewrite Hne. cbn [negb].
    unfold bind at 1, gets at 1. by rewrite Hroom.
Qed.

Lemma leftState_rooms_ne pid old room st rid :
  rid ≠ old ->
  rooms (leftState pid old room st) !! rid = rooms st !! rid.
Proof.
  intros Hne. unfold leftState. cbn.
  destruct (decide (peersDelete pid (r_peers room) = [])).
  - by rewrite lookup_delete_ne.
  - by rewrite lookup_insert_ne.
Qed.

(** ** What a join does, in closed form *)

Lemma joinRoom_dropped pid msg st :
  joinTarget msg = "" -> joinRoom pid msg st = (Normal tt, st).
Proof. intros H. unfold joinRoom. by rewrite H. Qed.

Lemma members_enter pid rid key rtc st room :
  rooms st !! rid = Some room ->
  rooms (enter pid rid key rtc st) !! rid
  = Some (mkRoom (keyHash room) (peersSet pid (r_peers room))).
Proof.
  intros H. unfold enter, updRoom, updPeer, setRooms, setPeers. cbn.
  rewrite lookup_alter_eq. cbn. by rewrite H.
Qed.


Lemma vacate_cases pid rid st :
  vacate pid rid st = st \/
  exists old room,
    p_roomId (getPeer st pid) = Some old /\ old ≠ "" /\ old ≠ rid /\
    rooms st !! old = Some room /\
    vacate pid rid st = leftState pid old room st.
Proof.
  unfold vacate.
  destruct (optTruthy (p_roomId (getPeer st pid))) eqn:Ht; [|by left].
  destruct (bool_decide (p_roomId (getPeer st pid) = Some rid)) eqn:Hd; [by left|].
  cbn [andb negb]. apply bool_decide_eq_false in Hd.
  destruct (leaveRoom_cases pid st) as [Hl | (old & room & Hr & Hne & Hroom & Hl)].
  - left. unfold exec. by rewrite Hl.
  - right. exists old, room. unfold exec. rewrite Hl. cbn.
    repeat split; try done. congruence.
Qed.

Lemma vacate_rooms_rid pid rid st :
  rooms (vacate pid rid st) !! rid = rooms st !! rid.
Proof.
  destruct (vacate_cases pid rid st) as [-> | (old & room & _ & _ & Hne & _ & ->)];
    [done|]. by apply leftState_rooms_ne.
Qed.

Lemma joinRoom_eq pid msg st :
  joinTarget msg ≠ "" ->
  joinRoom pid msg st =
    if rejects (joinTarget msg) (joinKey msg) st
    then send pid RoomKeyMismatch st
    else greet pid (joinTarget msg)
           (enter pid (joinTarget msg) (joinKey msg) (joinRtc msg)
              (vacate pid (joinTarget msg)
                 (resolved (joinTarget msg) (joinKey msg) st))).
Proof.
  intros Hne. unfold joinRoom.
  set (rid := joinTarget msg) in *. set (key := joinKey msg).
  apply nonEmpty_true in Hne. rewrite Hne. cbn [negb].
  unfold bind at 1, getOrCreateRoom, rejects, resolved.
  assert (Hwelcome : forall st1, is_Some (rooms st1 !! rid) ->
    (let! room := gets (fun st => default (mkRoom key []) (rooms st !! rid)) in
     let! roster := gets (fun st =>
       map (asPeerInfo st) (filter (fun x => x ≠ pid) (r_peers room))) in
     let! me := gets (fun st => getPeer st pid) in
     send pid (Welcome pid rid roster
                (displayName (p_name me)) (deviceName (p_name me))) ;;
     let! info := gets (fun st => asPeerInfo st pid) in
     broadcast room (PeerJoined info) (Some pid)) st1 = greet pid rid st1).
  { intros st1 [room Hroom]. unfold bind, gets. rewrite Hroom. cbn [default].
    rewrite send_eq. unfold greet, welcomeOf, members. rewrite Hroom.
    destruct (isOpen st1 pid) eqn:Ho; [|done].
    rewrite broadcast_eq, addWire_app. done. }
  assert (Htail : forall st1, is_Some (rooms st1 !! rid) ->
    ((let! peer := gets (fun st => getPeer st pid) in
      (if optTruthy (p_roomId peer) && negb (bool_decide (p_roomId peer = Some rid))
       then leaveRoom pid else ret tt) ;;
      modify (updPeer pid (fun p =>
        mkPeer (socket p) (Some rid) key (p_name p) (joinRtc msg))) ;;
      modify (updRoom rid (fun r => mkRoom (keyHash r) (peersSet pid (r_peers r)))) ;;
      let! room := gets (fun st => default (mkRoom key []) (rooms st !! rid)) in
      let! roster := gets (fun st =>
        map (asPeerInfo st) (filter (fun x => x ≠ pid) (r_peers room))) in
      let! me := gets (fun st => getPeer st pid) in
      send pid (Welcome pid rid roster
                 (displayName (p_name me)) (deviceName (p_name me))) ;;
      let! info := gets (fun st => asPeerInfo st pid) in
      broadcast room (PeerJoined info) (Some pid)) st1
     = greet pid rid (enter pid rid key (joinRtc msg) (vacate pid rid st1)))).
  { intros st1 Hsome. unfold bind at 1, gets at 1. unfold bind at 1.
    assert (Hv : exists c, (if optTruthy (p_roomId (getPeer st1 pid)) &&
        negb (bool_decide (p_roomId (getPeer st1 pid) = Some rid))
       then leaveRoom pid else ret tt) st1 = (Normal c, vacate pid rid st1)).
    { unfold vacate, exec.
      destruct (optTruthy (p_roomId (getPeer st1 pid)) &&
        negb (bool_decide (p_roomId (getPeer st1 pid) = Some rid))).
      - exists tt. pose proof (leaveRoom_normal pid st1) as Hn.
        unfold completion in Hn. destruct (leaveRoom pid st1) as [c s]. cbn in *.
        by subst.
      - by exists tt. }
    destruct Hv as [c Hv]. rewrite Hv.
    unfold bind at 1, modify at 1. unfold bind at 1, modify at 1.
    fold (enter pid rid key (joinRtc msg) (vacate pid rid st1)).
    apply Hwelcome.
    unfold enter, updRoom, updPeer, setRooms, setPeers. cbn.
    rewrite lookup_alter_eq, vacate_rooms_rid.
    destruct Hsome as [room ->]. by eexists. }
  destruct (rooms st !! rid) as [room|] eqn:Hroom.
  - destruct (nonEmpty (keyHash room) && negb (String.eqb key (keyHash room)));
      [done|].
    unfold bind at 1.
    destruct (negb (nonEmpty (keyHash room)) && nonEmpty key).
    + unfold modify at 1. apply Htail.
      unfold updRoom, setRooms. cbn. rewrite lookup_alter_eq, Hroom. by eexists.
    + unfold ret at 1. apply Htail. by eexists.
  - cbn [keyHash]. rewrite String.eqb_refl, andb_false_r.
    unfold bind at 1.
    replace (negb (nonEmpty key) && nonEmpty key) with false
      by (by destruct (nonEmpty key)).
    unfold ret at 1. apply Htail.
    unfold setRooms. cbn. rewrite lookup_insert_eq. by eexists.
Qed.

(** ** The membership invariant *)

Lemma getPeer_lookup st pid p : peers st !! pid = Some p -> getPeer st pid = p.
Proof. intros H. unfold getPeer. by rewrite H. Qed.

Lemma Inv_init : Inv init.
Proof. split; intros *; cbn; by rewrite ?lookup_empty. Qed.

Lemma InvBut_same hole st st' :
  peers st' = peers st -> rooms st' = rooms st -> InvBut hole st -> InvBut hole st'.
Proof.
  intros Hp Hr [H1 H2 H3 H4 H5 H6].
  split; rewrite ?Hp, ?Hr; done.
Qed.

Lemma InvBut_addWire hole es st : InvBut hole st -> InvBut hole (addWire es st).
Proof. by apply InvBut_same. Qed.

Lemma InvBut_weaken st hole : Inv st -> InvBut hole st.
Proof.
  intros [H1 H2 H3 H4 H5 H6]. split; try done.
  intros rid room Hroom _. by apply (H3 rid room).
Qed.

Lemma peersDelete_elem pid l m : m ∈ peersDelete pid l <-> m ∈ l /\ m ≠ pid.
Proof. unfold peersDelete. rewrite list_elem_of_filter. tauto. Qed.

Lemma peersSet_elem pid l m : m ∈ peersSet pid l <-> m ∈ l \/ m = pid.
Proof.
  unfold peersSet. case_bool_decide as Hin.
  - split; [tauto|]. intros [?| ->]; done.
  - rewrite elem_of_app, list_elem_of_singleton. done.
Qed.

Lemma peersSet_NoDup pid l : NoDup l -> NoDup (peersSet pid l).
Proof.
  intros Hnd. unfold peersSet. case_bool_decide as Hin; [done|].
  apply NoDup_app. split_and!; [done| |apply NoDup_singleton].
  intros x Hx ->%list_elem_of_singleton. done.
Qed.

Lemma InvBut_connect hole pid n st :
  pid ≠ "" -> peers st !! pid = None ->
  InvBut hole st -> InvBut hole (setPeers (insert pid (newPeer n)) st).
Proof.
  intros Hne Hfresh [H1 H2 H3 H4 H5 H6]. split; cbn; try done.
  - intros q p. rewrite lookup_insert. case_decide; [by subst|]. apply H1.
  - intros rid room m Hroom Hm. destruct (H5 _ _ _ Hroom Hm) as (p & Hp & Hr).
    exists p. split; [|done]. rewrite lookup_insert_ne; [done|]. congruence.
  - intros q p rid. rewrite lookup_insert. case_decide.
    + intros [= <-]. done.
    + apply H6.
Qed.

Lemma InvBut_stale hole pid s st :
  is_Some (peers st !! pid) ->
  InvBut hole st -> InvBut hole (updPeer pid (withSocket s) st).
Proof.
  intros [p0 Hp0] [H1 H2 H3 H4 H5 H6].
  unfold updPeer. rewrite (getPeer_lookup _ _ _ Hp0).
  split; cbn; try done.
  - intros q p. rewrite lookup_insert. case_decide; [subst; eauto|]. apply H1.
  - intros rid room m Hroom Hm. destruct (H5 _ _ _ Hroom Hm) as (p & Hp & Hr).
    rewrite lookup_insert. case_decide.
    + subst. eexists. split; [done|]. cbn. congruence.
    + eauto.
  - intros q p rid. rewrite lookup_insert. case_decide.
    + subst. intros [= <-]. cbn. by apply H6.
    + apply H6.
Qed.

Lemma leftState_peers pid old room st :
  peers (leftState pid old room st)
  = <[pid := withRoomId None (getPeer st pid)]> (peers st).
Proof. done. Qed.

Lemma InvBut_leftState hole pid old room p st :
  peers st !! pid = Some p -> p_roomId p = Some old ->
  rooms st !! old = Some room ->
  InvBut hole st -> InvBut hole (leftState pid old room st).
Proof.
  intros Hp Hold Hroom [H1 H2 H3 H4 H5 H6].
  assert (Hlook : forall rid room',
    rooms (leftState pid old room st) !! rid = Some room' ->
    (rid ≠ old /\ rooms st !! rid = Some room') \/
    (rid = old /\ room' = mkRoom (keyHash room) (peersDelete pid (r_peers room))
     /\ peersDelete pid (r_peers room) ≠ [])).
  { intros rid room'. unfold leftState. cbn. case_decide as Hrest.
    - rewrite lookup_delete. case_decide; [done|]. intros ?. left. split; congruence.
    - rewrite lookup_insert. case_decide.
      + intros [= <-]. right. subst. done.
      + intros ?. left. split; congruence. }
  split.
  - intros q p'. rewrite leftState_peers, lookup_insert.
    case_decide; [subst; eauto|]. apply H1.
  - intros rid room' [[_ ?] | (-> & _ & _)]%Hlook; eauto.
  - intros rid room' [[_ ?] | (-> & -> & ?)]%Hlook; eauto.
  - intros rid room' [[_ ?] | (-> & -> & ?)]%Hlook; eauto.
    cbn. unfold peersDelete. apply NoDup_filter. eauto.
  - intros rid room' m [[Hne Hr] | (-> & -> & ?)]%Hlook Hm.
    + destruct (H5 _ _ _ Hr Hm) as (p' & Hp' & Hrid).
      exists p'. split; [|done].
      rewrite leftState_peers, lookup_insert_ne; [done|]. intros ->. congruence.
    + cbn in Hm. apply peersDelete_elem in Hm as [Hm Hmne].
      destruct (H5 _ _ _ Hroom Hm) as (p' & Hp' & Hrid).
      exists p'. split; [|done].
      by rewrite leftState_peers, lookup_insert_ne.
  - intros q p' rid. rewrite leftState_peers, lookup_insert.
    case_decide as Hq.
    + intros [= <-]. done.
    + intros Hq' Hrid. destruct (H6 _ _ _ Hq' Hrid) as (room' & Hr' & Hin).
      destruct (decide (rid = old)) as [->|Hne].
      * assert (room' = room) as -> by congruence.
        assert (Hin' : q ∈ peersDelete pid (r_peers room)).
        { apply peersDelete_elem. split; [done|congruence]. }
        exists (mkRoom (keyHash room) (peersDelete pid (r_peers room))).
        split; [|done]. unfold leftState. cbn.
        rewrite decide_False; [by rewrite lookup_insert_eq|].
        intros Hnil. rewrite Hnil in Hin'. by apply not_elem_of_nil in Hin'.
      * exists room'. split; [|done]. by rewrite leftState_rooms_ne.
Qed.

Lemma InvBut_resolved rid key st :
  rid ≠ "" -> Inv st -> InvBut (Some rid) (resolved rid key st).
Proof.
  intros Hne [H1 H2 H3 H4 H5 H6]. unfold resolved.
  destruct (rooms st !! rid) as [room|] eqn:Hroom.
  - destruct (negb (nonEmpty (keyHash room)) && nonEmpty key);
      [|by apply InvBut_weaken].
    assert (Hlook : forall r room',
      rooms (updRoom rid (fun r => mkRoom key (r_peers r)) st) !! r = Some room' ->
      exists room0, rooms st !! r = Some room0 /\ r_peers room' = r_peers room0).
    { intros r room'. unfold updRoom, setRooms. cbn. rewrite lookup_alter.
      case_decide.
      - subst. rewrite Hroom. cbn. intros [= <-]. eauto.
      - eauto. }
    split; cbn.
    + done.
    + intros r room' (room0 & ? & _)%Hlook. eauto.
    + intros r room' (room0 & ? & ->)%Hlook _. eauto.
    + intros r room' (room0 & ? & ->)%Hlook. eauto.
    + intros r room' m (room0 & ? & ->)%Hlook. eauto.
    + intros q p r Hq Hr. destruct (H6 _ _ _ Hq Hr) as (room0 & Hr0 & Hin).
      unfold updRoom, setRooms. cbn. rewrite lookup_alter. case_decide.
      * subst. rewrite Hr0. cbn. eauto.
      * eauto.
  - assert (Hlook : forall r room',
      rooms (setRooms (insert rid (mkRoom key [])) st) !! r = Some room' ->
      (r = rid /\ r_peers room' = []) \/ (r ≠ rid /\ rooms st !! r = Some room')).
    { intros r room'. unfold setRooms. cbn. rewrite lookup_insert. case_decide.
      - intros [= <-]. left. by subst.
      - right. split; congruence. }
    split; cbn.
    + done.
    + intros r room' [[-> _] | [_ ?]]%Hlook; eauto.
    + intros r room' [[-> _] | [_ ?]]%Hlook ?; [done | eauto].
    + intros r room' [[-> ->] | [_ ?]]%Hlook; [apply NoDup_nil_2 | eauto].
    + intros r room' m [[-> ->] | [_ ?]]%Hlook; [by intros ?%not_elem_of_nil | eauto].
    + intros q p r Hq Hr. destruct (H6 _ _ _ Hq Hr) as (room0 & Hr0 & Hin).
      exists room0. split; [|done]. rewrite lookup_insert_ne; [done|]. congruence.
Qed.

Lemma InvBut_vacate hole pid rid p st :
  peers st !! pid = Some p ->
  InvBut hole st ->
  InvBut hole (vacate pid rid st) /\
  exists p', peers (vacate pid rid st) !! pid = Some p' /\
    (p_roomId p' = None \/ p_roomId p' = Some rid).
Proof.
  intros Hp Hinv.
  destruct (vacate_cases pid rid st)
    as [Heq | (old & room & Hold & Hne & Hdiff & Hroom & ->)].
  - split; [by rewrite Heq|]. exists p. split; [by rewrite Heq|].
    destruct (p_roomId p) as [r|] eqn:Hr; [|by left]. right.
    destruct (inv_joined _ _ Hinv _ _ _ Hp Hr) as (room & Hroom & Hin).
    pose proof (inv_rid _ _ Hinv _ _ Hroom) as Hne.
    assert (Hr' : p_roomId (getPeer st pid) = Some r)
      by by rewrite (getPeer_lookup _ _ _ Hp).
    destruct (decide (r = rid)) as [->|Hdiff]; [done|]. exfalso.
    unfold vacate in Heq. rewrite Hr' in Heq. cbn in Heq.
    apply nonEmpty_true in Hne. rewrite Hne in Heq. apply nonEmpty_true in Hne.
    rewrite bool_decide_eq_false_2 in Heq by congruence. cbn in Heq.
    unfold exec in Heq. rewrite (leaveRoom_joined _ _ _ _ Hr' Hne Hroom) in Heq.
    cbn in Heq. apply (f_equal peers) in Heq. rewrite leftState_peers in Heq.
    apply (f_equal (fun m => m !! pid)) in Heq. cbn in Heq.
    rewrite lookup_insert_eq, Hp in Heq. injection Heq as <-.
    rewrite (getPeer_lookup _ _ _ Hp) in Hr. cbn in Hr. done.
  - rewrite (getPeer_lookup _ _ _ Hp) in Hold.
    split; [by eapply InvBut_leftState|].
    eexists. rewrite leftState_peers, lookup_insert_eq. split; [done|]. by left.
Qed.

Lemma InvBut_enter pid rid key rtc p st :
  peers st !! pid = Some p ->
  p_roomId p = None \/ p_roomId p = Some rid ->
  is_Some (rooms st !! rid) ->
  InvBut (Some rid) st -> Inv (enter pid rid key rtc st).
Proof.
  intros Hp Hwhere [room Hroom] [H1 H2 H3 H4 H5 H6].
  assert (Hpeers : forall q, peers (enter pid rid key rtc st) !! q =
    if decide (pid = q) then Some (mkPeer (socket p) (Some rid) key (p_name p) rtc)
    else peers st !! q).
  { intros q. unfold enter, updRoom, updPeer, setRooms, setPeers. cbn.
    by rewrite lookup_insert, (getPeer_lookup _ _ _ Hp). }
  assert (Hrooms : forall r, rooms (enter pid rid key rtc st) !! r =
    if decide (rid = r) then Some (mkRoom (keyHash room) (peersSet pid (r_peers room)))
    else rooms st !! r).
  { intros r. unfold enter, updRoom, updPeer, setRooms, setPeers. cbn.
    rewrite lookup_alter. case_decide; [subst; by rewrite Hroom | done]. }
  split.
  - intros q p'. rewrite Hpeers. case_decide; [subst; eauto|]. apply H1.
  - intros r room'. rewrite Hrooms. case_decide; [subst; eauto|]. apply H2.
  - intros r room'. rewrite Hrooms. case_decide.
    + intros [= <-] _. cbn. intros Hnil.
      assert (pid ∈ peersSet pid (r_peers room)) as Hin
        by (apply peersSet_elem; by right).
      rewrite Hnil in Hin. by apply not_elem_of_nil in Hin.
    + intros Hr _. apply (H3 _ _ Hr). congruence.
  - intros r room'. rewrite Hrooms. case_decide.
    + intros [= <-]. cbn. apply peersSet_NoDup. eauto.
    + apply H4.
  - intros r room' m. rewrite Hrooms, Hpeers. case_decide as Hr.
    + intros [= <-]. cbn. intros [Hin | ->]%peersSet_elem.
      * case_decide; [subst; eauto|]. subst. eauto.
      * rewrite decide_True by done. subst. eauto.
    + intros Hroom' Hin. destruct (H5 _ _ _ Hroom' Hin) as (p' & Hp' & Hrid).
      case_decide as Hq; [|eauto]. subst m.
      assert (p' = p) as -> by congruence.
      destruct Hwhere; congruence.
  - intros q p' r. rewrite Hpeers, Hrooms. case_decide as Hq.
    + intros [= <-]. cbn. intros [= <-]. rewrite decide_True by done.
      eexists. split; [done|]. cbn. apply peersSet_elem. by right.
    + intros Hq' Hr. destruct (H6 _ _ _ Hq' Hr) as (room' & Hroom' & Hin).
      case_decide as Hrr; [|eauto]. subst r.
      assert (room' = room) as -> by congruence.
      eexists. split; [done|]. cbn. apply peersSet_elem. by left.
Qed.

(** ** Every handler keeps the invariant *)


Lemma Inv_leaveRoom pid st :
  is_Some (peers st !! pid) -> Inv st -> Inv (exec (leaveRoom pid) st).
Proof.
  intros [p Hp] Hinv. unfold exec.
  destruct (leaveRoom_cases pid st) as [-> | (rid & room & Hr & _ & Hroom & ->)];
    [done|]. cbn.
  rewrite (getPeer_lookup _ _ _ Hp) in Hr. by eapply InvBut_leftState.
Qed.

Lemma greet_state pid rid st :
  exists es, snd (greet pid rid st) = addWire es st.
Proof. unfold greet. destruct (isOpen st pid); by eexists. Qed.

Lemma resolved_peers rid key st : peers (resolved rid key st) = peers st.
Proof.
  unfold resolved. destruct (rooms st !! rid) as [room|]; [|done].
  by destruct (negb (nonEmpty (keyHash room)) && nonEmpty key).
Qed.

Lemma resolved_rooms_rid rid key st : is_Some (rooms (resolved rid key st) !! rid).
Proof.
  unfold resolved. destruct (rooms st !! rid) as [room|] eqn:Hroom.
  - destruct (negb (nonEmpty (keyHash room)) && nonEmpty key).
    + unfold updRoom, setRooms. cbn. rewrite lookup_alter_eq, Hroom. by eexists.
    + by eexists.
  - unfold setRooms. cbn. rewrite lookup_insert_eq. by eexists.
Qed.

Lemma Inv_joinRoom pid msg st :
  is_Some (peers st !! pid) -> Inv st -> Inv (exec (joinRoom pid msg) st).
Proof.
  intros [p Hp] Hinv. unfold exec.
  destruct (decide (joinTarget msg = "")) as [Hdrop|Hne].
  { by rewrite joinRoom_dropped. }
  rewrite joinRoom_eq by done.
  destruct (rejects (joinTarget msg) (joinKey msg) st).
  { rewrite send_eq. cbn. by apply InvBut_addWire. }
  set (rid := joinTarget msg) in *. set (key := joinKey msg).
  pose proof (InvBut_resolved rid key st Hne Hinv) as Ha.
  assert (Hp1 : peers (resolved rid key st) !! pid = Some p)
    by by rewrite resolved_peers.
  destruct (InvBut_vacate _ pid rid p _ Hp1 Ha) as (Hv & p' & Hp' & Hwhere).
  assert (Hroom : is_Some (rooms (vacate pid rid (resolved rid key st)) !! rid)).
  { rewrite vacate_rooms_rid. apply resolved_rooms_rid. }
  pose proof (InvBut_enter pid rid key (joinRtc msg) p' _ Hp' Hwhere Hroom Hv) as He.
  destruct (greet_state pid rid
    (enter pid rid key (joinRtc msg) (vacate pid rid (resolved rid key st))))
    as [es ->].
  by apply InvBut_addWire.
Qed.

Lemma relaySignal_eq pid msg st :
  relaySignal pid msg st =
    match p_roomId (getPeer st pid) with
    | Some rid =>
        match rooms st !! rid, m_to msg with
        | Some room, JStr target =>
            if nonEmpty rid && bool_decide (target ∈ r_peers room)
            then send target (Signal pid (m_sdp msg) (m_ice msg)) st
            else (Normal tt, st)
        | _, _ => (Normal tt, st)
        end
    | None => (Normal tt, st)
    end.
Proof.
  unfold relaySignal, bind at 1, gets at 1.
  destruct (p_roomId (getPeer st pid)) as [rid|]; [|done]. cbn.
  destruct (nonEmpty rid); cbn.
  - unfold bind, gets. destruct (rooms st !! rid) as [room|]; [|done].
    destruct (m_to msg) as [| |b|target]; try done.
    by destruct (bool_decide (target ∈ r_peers room)).
  - unfold ret. destruct (rooms st !! rid); [|done]. by destruct (m_to msg).
Qed.

Lemma relaySignal_state pid msg st :
  exists es, exec (relaySignal pid msg) st = addWire es st.
Proof.
  unfold exec. rewrite relaySignal_eq.
  destruct (p_roomId (getPeer st pid)) as [rid|];
    [|exists []; by rewrite addWire_nil].
  destruct (rooms st !! rid) as [room|];
    [|exists []; by rewrite addWire_nil].
  destruct (m_to msg) as [| |b|target]; try (exists []; by rewrite addWire_nil).
  destruct (nonEmpty rid && bool_decide (target ∈ r_peers room)).
  - rewrite send_eq. by eexists.
  - exists []. by rewrite addWire_nil.
Qed.

Lemma Inv_onMessage pid msg st :
  is_Some (peers st !! pid) -> Inv st -> Inv (exec (onMessage pid msg) st).
Proof.
  intros Hp Hinv. unfold onMessage.
  destruct (m_type msg) as [| |b|t]; try done.
  destruct (String.eqb t "join"); [by apply Inv_joinRoom|].
  destruct (String.eqb t "signal").
  { destruct (relaySignal_state pid msg st) as [es ->]. by apply InvBut_addWire. }
  destruct (String.eqb t "disconnect"); [by apply Inv_leaveRoom|].
  by destruct (String.eqb t "pong").
Qed.

(** The ['message'] listener: what the [try] block leaves, then the error
    notice if it threw. *)
Lemma onSocketMessage_eq pid f st :
  onSocketMessage pid f st =
    match f with
    | Undecodable | DecodedNull => send pid (ErrorMsg "Invalid JSON message") st
    | Decoded msg =>
        match onMessage pid msg st with
        | (Normal a, st') => (Normal a, st')
        | (Throw, st') => send pid (ErrorMsg "Invalid JSON message") st'
        end
    end.
Proof. by destruct f. Qed.

Lemma Inv_onSocketMessage pid f st :
  is_Some (peers st !! pid) -> Inv st -> Inv (exec (onSocketMessage pid f) st).
Proof.
  intros Hp Hinv. unfold exec. rewrite onSocketMessage_eq.
  destruct f as [| |msg]; try (rewrite send_eq; by apply InvBut_addWire).
  pose proof (Inv_onMessage pid msg st Hp Hinv) as Hm. unfold exec in Hm.
  destruct (onMessage pid msg st) as [[a|] st']; [done|].
  rewrite send_eq. by apply InvBut_addWire.
Qed.

Lemma Inv_handle e st : enabled e st = true -> Inv st -> Inv (handle e st).
Proof.
  intros Hen Hinv. destruct e as [pid ra rn rd|pid f|pid|pid|pid]; cbn in *.
  - rewrite !andb_true_iff in Hen. destruct Hen as [[[[Hne Hfresh] _] _] _].
    apply nonEmpty_true in Hne. apply bool_decide_eq_true in Hfresh.
    by apply InvBut_connect.
  - apply bool_decide_eq_true in Hen. by apply Inv_onSocketMessage.
  - apply bool_decide_eq_true in Hen. by apply Inv_leaveRoom.
  - apply bool_decide_eq_true in Hen. by apply Inv_leaveRoom.
  - apply bool_decide_eq_true in Hen. by apply InvBut_stale.
Qed.

Lemma reachable_Inv st : reachable st -> Inv st.
Proof.
  induction 1 as [|st e _ IH Hen]; [apply Inv_init | by apply Inv_handle].
Qed.

Lemma run_reachable evs st st' :
  reachable st -> run evs st = Some st' -> reachable st'.
Proof.
  revert st. induction evs as [|e evs IH]; intros st Hst; cbn.
  - by intros [= <-].
  - destruct (enabled e st) eqn:Hen; [|done].
    apply IH. by apply reachable_step.
Qed.

(** ** Scenarios *)

Ltac by_run evs :=
  apply (run_reachable evs init); [apply reachable_init | vm_compute; reflexivity].

(** ** Membership *)

(** C2. In every reachable state membership is mutually consistent: a
    peer's [roomId] is [rid] exactly when the peer is a key of the member
    map of [rooms[rid]], and every key of a room's member map is a peer
    whose [roomId] is that room's id. *)
Theorem membership_consistent (st : State) (Hreach : reachable st) :
  (forall pid p rid, peers st !! pid = Some p ->
     (p_roomId p = Some rid <->
      exists room, rooms st !! rid = Some room /\ pid ∈ r_peers room)) /\
  (forall rid room m, rooms st !! rid = Some room -> m ∈ r_peers room ->
     exists p, peers st !! m = Some p /\ p_roomId p = Some rid).
Proof.
  pose proof (reachable_Inv st Hreach) as Hinv. split.
  - intros pid p rid Hp. split.
    + intros Hr. by apply (inv_joined _ _ Hinv pid p rid).
    + intros (room & Hroom & Hin).
      destruct (inv_member _ _ Hinv _ _ _ Hroom Hin) as (p' & Hp' & Hr).
      congruence.
  - apply (inv_member _ _ Hinv).
Qed.

Lemma membership_consistent_witness :
  reachable demo /\
  (forall pid p rid, peers demo !! pid = Some p ->
     (p_roomId p = Some rid <->
      exists room, rooms demo !! rid = Some room /\ pid ∈ r_peers room)) /\
  (forall rid room m, rooms demo !! rid = Some room -> m ∈ r_peers room ->
     exists p, peers demo !! m = Some p /\ p_roomId p = Some rid).
Proof.
  split; [by_run demoEvents | apply (membership_consistent demo); by_run demoEvents].
Defined.

(** ** The leave sequence *)

Lemma leaveRoom_twice pid st :
  exec (leaveRoom pid) (exec (leaveRoom pid) st) = exec (leaveRoom pid) st.
Proof.
  destruct (leaveRoom_cases pid st) as [Heq | (rid & room & _ & _ & _ & Heq)].
  - unfold exec. rewrite Heq. cbn [snd]. by rewrite Heq.
  - unfold exec. rewrite Heq. cbn [snd]. rewrite leaveRoom_unjoined; [done|].
    unfold getPeer. by rewrite leftState_peers, lookup_insert_eq.
Qed.

(** C5. The leave sequence completes normally and is idempotent.  For an
    Unjoined peer it changes nothing and sends nothing.  For a peer Joined
    to room [rid] it takes the peer out of the room's member map, sends one
    peer-left notice with the peer's id to each remaining member and none
    to the peer itself, removes the room from the registry exactly when
    the peer was its only member, and makes the peer Unjoined; a second
    run changes nothing. *)
Theorem leaveRoom_idempotent (st : State) (pid : string) (p : Peer)
    (Hreach : reachable st) (Hp : peers st !! pid = Some p) :
  let st' := exec (leaveRoom pid) st in
  completion (leaveRoom pid) st = Normal tt /\
  (p_roomId p = None -> st' = st) /\
  (forall rid room, p_roomId p = Some rid -> rooms st !! rid = Some room ->
     let rest := filter (fun m => m ≠ pid) (r_peers room) in
     peers st' = <[pid := withRoomId None p]> (peers st) /\
     rooms st' = (if decide (rest = []) then delete rid (rooms st)
                  else <[rid := mkRoom (keyHash room) rest]> (rooms st)) /\
     wire st' = wire st ++ map (fun m => mkSend m (PeerLeft pid) (isOpen st m)) rest /\
     NoDup rest /\ (pid ∉ rest) /\
     (forall m, m ∈ r_peers room -> m ≠ pid -> m ∈ rest) /\
     (rooms st' !! rid = None <-> r_peers room = [pid])) /\
  p_roomId (getPeer st' pid) = None /\
  exec (leaveRoom pid) st' = st'.
Proof.
  intros st'. pose proof (reachable_Inv st Hreach) as Hinv.
  split; [apply leaveRoom_normal|]. split.
  { intros Hr. unfold st', exec. rewrite leaveRoom_unjoined; [done|].
    by rewrite (getPeer_lookup _ _ _ Hp). }
  split.
  { intros rid room Hr Hroom rest.
    pose proof (inv_rid _ _ Hinv _ _ Hroom) as Hne.
    assert (Hr' : p_roomId (getPeer st pid) = Some rid)
      by by rewrite (getPeer_lookup _ _ _ Hp).
    unfold st', exec. rewrite (leaveRoom_joined _ _ _ _ Hr' Hne Hroom). cbn.
    fold rest. rewrite (getPeer_lookup _ _ _ Hp).
    pose proof (inv_nodup _ _ Hinv _ _ Hroom) as Hnd.
    destruct (inv_joined _ _ Hinv _ _ _ Hp Hr) as (room0 & Hroom0 & Hin).
    assert (room0 = room) as -> by congruence.
    split_and!; try done.
    - by apply NoDup_filter.
    - unfold rest. rewrite list_elem_of_filter. tauto.
    - intros m Hm Hmne. unfold rest. by rewrite list_elem_of_filter.
    - unfold peersDelete. fold rest. case_decide as Hrest.
      + rewrite lookup_delete_eq. split; [intros _|done].
        destruct (r_peers room) as [|a l] eqn:Hl; [by apply not_elem_of_nil in Hin|].
        assert (Ha : a = pid).
        { destruct (decide (a = pid)) as [|Hna]; [done|].
          assert (a ∈ rest) as Hbad
            by (unfold rest; rewrite list_elem_of_filter; split; [done|left]).
          rewrite Hrest in Hbad. by apply not_elem_of_nil in Hbad. }
        subst a. f_equal. destruct l as [|b l]; [done|].
        apply NoDup_cons in Hnd as [Hnotin _].
        assert (b ≠ pid) as Hb by (intros ->; apply Hnotin; left).
        assert (b ∈ rest) as Hbad.
        { unfold rest. rewrite list_elem_of_filter. split; [done|]. right. left. }
        rewrite Hrest in Hbad. by apply not_elem_of_nil in Hbad.
      + rewrite lookup_insert_eq. split; [done|]. intros Hone.
        exfalso. apply Hrest. unfold rest. rewrite Hone.
        rewrite filter_cons, decide_False by (intros ?; done). done. }
  split; [|apply leaveRoom_twice].
  unfold st', exec.
  destruct (leaveRoom_cases pid st) as [Heq | (rid & room & _ & _ & _ & Heq)];
    rewrite Heq; cbn.
  - destruct (p_roomId (getPeer st pid)) as [rid|] eqn:Hr; [|done]. exfalso.
    rewrite (getPeer_lookup _ _ _ Hp) in Hr.
    destruct (inv_joined _ _ Hinv _ _ _ Hp Hr) as (room & Hroom & Hin).
    pose proof (inv_rid _ _ Hinv _ _ Hroom) as Hne.
    assert (Hr' : p_roomId (getPeer st pid) = Some rid)
      by by rewrite (getPeer_lookup _ _ _ Hp).
    rewrite (leaveRoom_joined _ _ _ _ Hr' Hne Hroom) in Heq.
    injection Heq as Heq. apply (f_equal (fun s => peers s !! pid)) in Heq.
    rewrite leftState_peers, lookup_insert_eq, Hp in Heq.
    injection Heq as <-. rewrite (getPeer_lookup _ _ _ Hp) in Hr. done.
  - unfold getPeer. by rewrite leftState_peers, lookup_insert_eq.
Qed.

Lemma leaveRoom_idempotent_witness :
  reachable demo /\ peers demo !! "A" = Some (getPeer demo "A") /\
  exec (leaveRoom "A") (exec (leaveRoom "A") demo) = exec (leaveRoom "A") demo.
Proof.
  split; [by_run demoEvents|]. split; [vm_compute; reflexivity|].
  apply (leaveRoom_idempotent demo "A" (getPeer demo "A"));
    [by_run demoEvents | vm_compute; reflexivity].
Defined.

(** ** Broadcast *)

Lemma recipients_filter ex l :
  ex ≠ Some "" -> recipients ex l = filter (fun m => Some m ≠ ex) l.
Proof.
  intros Hex. destruct ex as [x|]; cbn.
  - assert (nonEmpty x = true) as -> by (apply nonEmpty_true; congruence).
    apply list_filter_iff. intros m. split; congruence.
  - induction l as [|a l IH]; [done|].
    rewrite filter_cons, decide_True by done. by rewrite <- IH.
Qed.

(** ** Relay of a signal *)

Lemma onMessage_signal pid msg st :
  m_type msg = JStr "signal" -> onMessage pid msg st = relaySignal pid msg st.
Proof. intros H. unfold onMessage. by rewrite H. Qed.


(** C6. A signal message from a peer that is Joined to a room holding the
    target id makes exactly one send, to the target's socket, of the signal
    with the sender's id and the [sdp] and [ice] of the message as they
    came; with the target's socket open that is all the listener does.  From
    a peer that is not Joined, or to an id that is not in the sender's room,
    the listener leaves the state, log of sends included, as it was. *)
Theorem relaySignal_routes (st : State) (pid : string) (p : Peer) (msg : Msg)
    (Hreach : reachable st) (Hp : peers st !! pid = Some p)
    (Htype : m_type msg = JStr "signal") :
  let st' := exec (onSocketMessage pid (Decoded msg)) st in
  (forall rid room target,
     p_roomId p = Some rid -> rooms st !! rid = Some room ->
     m_to msg = JStr target -> target ∈ r_peers room ->
     exec (relaySignal pid msg) st
       = addWire [mkSend target (Signal pid (m_sdp msg) (m_ice msg))
                    (isOpen st target)] st /\
     (isOpen st target = true ->
      st' = addWire [mkSend target (Signal pid (m_sdp msg) (m_ice msg)) true] st)) /\
  (p_roomId p = None -> st' = st) /\
  (forall rid room,
     p_roomId p = Some rid -> rooms st !! rid = Some room ->
     (forall target, m_to msg = JStr target -> target ∉ r_peers room) ->
     st' = st).
Proof.
  intros st'. pose proof (reachable_Inv st Hreach) as Hinv.
  unfold st', exec. rewrite onSocketMessage_eq, onMessage_signal by done.
  rewrite relaySignal_eq, (getPeer_lookup _ _ _ Hp).
  split_and!.
  - intros rid room target Hr Hroom Hto Hin. rewrite Hr, Hroom, Hto.
    pose proof (inv_rid _ _ Hinv _ _ Hroom) as Hne%nonEmpty_true.
    rewrite Hne, bool_decide_eq_true_2 by done. cbn [andb].
    rewrite send_eq. split; [done|]. by intros ->.
  - by intros ->.
  - intros rid room Hr Hroom Hnot. rewrite Hr, Hroom.
    destruct (m_to msg) as [| |b|target]; try done.
    rewrite (bool_decide_eq_false_2 (target ∈ r_peers room)) by by apply Hnot.
    by rewrite andb_false_r.
Qed.

Lemma relaySignal_routes_witness :
  reachable demo /\ peers demo !! "A" = Some (getPeer demo "A") /\
  exec (onSocketMessage "A" (Decoded (signalMsg "B" (Some "offer") None))) demo
  = addWire [mkSend "B" (Signal "A" (Some "offer") None) true] demo.
Proof.
  split; [by_run demoEvents|]. split; [vm_compute; reflexivity|].
  destruct (relaySignal_routes demo "A" (getPeer demo "A")
    (signalMsg "B" (Some "offer") None)) as (Hfound & _ & _);
    [by_run demoEvents | vm_compute; reflexivity | reflexivity |].
  refine (proj2 (Hfound "R1" (mkRoom "k1" ["A"; "B"]) "B" _ _ _ _) _);
    [vm_compute; reflexivity | vm_compute; reflexivity | reflexivity
    | right; left | vm_compute; reflexivity].
Defined.

(** C10. A signal message from a Joined peer whose target id is the peer's
    own id is sent to the peer's own socket, with the peer's id as sender:
    the relay looks the target up in the member map of the sender's room,
    which holds the sender. *)
Theorem relaySignal_to_self (st : State) (pid : string) (p : Peer) (rid : string)
    (msg : Msg)
    (Hreach : reachable st) (Hp : peers st !! pid = Some p)
    (Hjoined : p_roomId p = Some rid)
    (Htype : m_type msg = JStr "signal") (Hto : m_to msg = JStr pid)
    (Hopen : socket p = SockOpen) :
  exec (onSocketMessage pid (Decoded msg)) st
  = addWire [mkSend pid (Signal pid (m_sdp msg) (m_ice msg)) true] st.
Proof.
  pose proof (reachable_Inv st Hreach) as Hinv.
  destruct (inv_joined _ _ Hinv _ _ _ Hp Hjoined) as (room & Hroom & Hin).
  pose proof (inv_rid _ _ Hinv _ _ Hroom) as Hne%nonEmpty_true.
  unfold exec. rewrite onSocketMessage_eq, onMessage_signal by done.
  rewrite relaySignal_eq, (getPeer_lookup _ _ _ Hp), Hjoined, Hroom, Hto.
  rewrite Hne, bool_decide_eq_true_2 by done. cbn [andb].
  rewrite send_eq. unfold isOpen.
  by rewrite (getPeer_lookup _ _ _ Hp), Hopen.
Qed.

Lemma relaySignal_to_self_witness :
  exec (onSocketMessage "A" (Decoded (signalMsg "A" None (Some "cand")))) demo
  = addWire [mkSend "A" (Signal "A" None (Some "cand")) true] demo.
Proof.
  apply (relaySignal_to_self demo "A" (getPeer demo "A") "R1"
           (signalMsg "A" None (Some "cand")));
    [by_run demoEvents | vm_compute; reflexivity | vm_compute; reflexivity
    | reflexivity | reflexivity | vm_compute; reflexivity].
Defined.

(** ** The welcome *)

Lemma resolved_members rid key st : members (resolved rid key st) rid = members st rid.
Proof.
  unfold members, resolved. destruct (rooms st !! rid) as [room|] eqn:Hroom.
  - destruct (negb (nonEmpty (keyHash room)) && nonEmpty key).
    + unfold updRoom, setRooms. cbn. by rewrite lookup_alter_eq, Hroom.
    + by rewrite Hroom.
  - unfold setRooms. cbn. by rewrite lookup_insert_eq.
Qed.

Lemma resolved_wire rid key st : wire (resolved rid key st) = wire st.
Proof.
  unfold resolved. destruct (rooms st !! rid) as [room|]; [|done].
  by destruct (negb (nonEmpty (keyHash room)) && nonEmpty key).
Qed.

Lemma fanout_to st payload l e : e ∈ fanout st payload l -> s_to e ∈ l.
Proof.
  unfold fanout. intros (m & -> & Hm)%list_elem_of_fmap. done.
Qed.

Lemma fanout_msg st payload l e : e ∈ fanout st payload l -> s_msg e = payload.
Proof.
  unfold fanout. intros (m & -> & Hm)%list_elem_of_fmap. done.
Qed.

(** What the leave inside a join leaves of the peer, the others and the log. *)
Lemma vacate_effect pid rid st :
  (forall m, m ≠ pid -> peers (vacate pid rid st) !! m = peers st !! m) /\
  (forall p, peers st !! pid = Some p ->
     exists p', peers (vacate pid rid st) !! pid = Some p' /\
       socket p' = socket p /\ p_name p' = p_name p) /\
  (exists es, wire (vacate pid rid st) = wire st ++ es /\
     forall e, e ∈ es -> s_to e ≠ pid /\ s_msg e = PeerLeft pid).
Proof.
  destruct (vacate_cases pid rid st) as [-> | (old & room & _ & _ & _ & _ & ->)].
  - split_and!; [done|eauto|]. exists []. rewrite app_nil_r. split; [done|].
    by intros e ?%not_elem_of_nil.
  - split_and!.
    + intros m Hm. by rewrite leftState_peers, lookup_insert_ne.
    + intros p Hp. rewrite leftState_peers, lookup_insert_eq.
      eexists. split; [done|]. by rewrite (getPeer_lookup _ _ _ Hp).
    + eexists. split; [done|]. intros e He. split.
      * apply fanout_to in He. by apply peersDelete_elem in He as [_ ?].
      * by apply fanout_msg in He.
Qed.

Lemma filter_peersSet pid l :
  filter (fun m => m ≠ pid) (peersSet pid l) = filter (fun m => m ≠ pid) l.
Proof.
  unfold peersSet. case_bool_decide; [done|].
  rewrite filter_app, filter_cons, decide_False by (intros ?; done).
  by rewrite filter_nil, app_nil_r.
Qed.

Lemma members_enter_rid pid rid key rtc st :
  is_Some (rooms st !! rid) ->
  members (enter pid rid key rtc st) rid = peersSet pid (members st rid).
Proof.
  intros [room Hroom]. unfold members.
  by rewrite (members_enter _ _ _ _ _ _ Hroom), Hroom.
Qed.

Lemma enter_peers pid rid key rtc st m :
  peers (enter pid rid key rtc st) !! m =
    if decide (pid = m)
    then Some (mkPeer (socket (getPeer st pid)) (Some rid) key
                 (p_name (getPeer st pid)) rtc)
    else peers st !! m.
Proof.
  unfold enter, updRoom, updPeer, setRooms, setPeers. cbn.
  by rewrite lookup_insert.
Qed.

(** The state in which an accepted join greets. *)
Lemma entered_effect pid p msg st :
  peers st !! pid = Some p ->
  let rid := joinTarget msg in
  let st3 := enter pid rid (joinKey msg) (joinRtc msg)
               (vacate pid rid (resolved rid (joinKey msg) st)) in
  (forall m, m ≠ pid -> getPeer st3 m = getPeer st m) /\
  getPeer st3 pid
    = mkPeer (socket p) (Some rid) (joinKey msg) (p_name p) (joinRtc msg) /\
  filter (fun m => m ≠ pid) (members st3 rid)
    = filter (fun m => m ≠ pid) (members st rid) /\
  (exists es, wire st3 = wire st ++ es /\
     forall e, e ∈ es -> s_to e ≠ pid /\ s_msg e = PeerLeft pid).
Proof.
  intros Hp rid st3. set (key := joinKey msg) in *.
  destruct (vacate_effect pid rid (resolved rid key st)) as (Hothers & Hme & Hwire).
  destruct (Hme p) as (p' & Hp' & Hsock & Hname); [by rewrite resolved_peers|].
  split_and!.
  - intros m Hm. unfold getPeer, st3.
    rewrite enter_peers, decide_False by done.
    by rewrite Hothers, resolved_peers.
  - unfold getPeer at 1. unfold st3. rewrite enter_peers, decide_True by done.
    cbn. by rewrite (getPeer_lookup _ _ _ Hp'), Hsock, Hname.
  - unfold st3. rewrite members_enter_rid, filter_peersSet.
    + f_equal. unfold members at 1. rewrite vacate_rooms_rid.
      fold (members (resolved rid key st) rid). apply resolved_members.
    + rewrite vacate_rooms_rid. apply resolved_rooms_rid.
  - destruct Hwire as (es & Hw & Hes). exists es. split; [|done].
    unfold st3, enter, updRoom, updPeer, setRooms, setPeers. cbn.
    by rewrite Hw, resolved_wire.
Qed.

Lemma rejects_false rid key st :
  (forall room, rooms st !! rid = Some room ->
     keyHash room = "" \/ keyHash room = key) ->
  rejects rid key st = false.
Proof.
  intros H. unfold rejects. destruct (rooms st !! rid) as [room|]; [|done].
  destruct (H room eq_refl) as [-> | ->]; [done|].
  by rewrite String.eqb_refl, andb_false_r.
Qed.

Lemma rejects_true rid key room st :
  rooms st !! rid = Some room -> keyHash room ≠ "" -> key ≠ keyHash room ->
  rejects rid key st = true.
Proof.
  intros Hroom Hne%nonEmpty_true Hdiff%String.eqb_neq. unfold rejects.
  by rewrite Hroom, Hne, Hdiff.
Qed.

(** C7. An accepted join sends the joining peer exactly one message, the
    welcome: it carries the peer's id, the room id, the peer's display and
    device names, and a roster with one entry (id, capability flag, name)
    for each member the room had before the join other than the joiner, in
    the order of the member map.  The other sends of the operation are the
    peer-left notices to the room left and the peer-joined notices, none of
    them to the joiner. *)
Theorem welcome_roster (st : State) (pid : string) (p : Peer) (msg : Msg)
    (Hreach : reachable st) (Hp : peers st !! pid = Some p)
    (Hrid : joinTarget msg ≠ "")
    (Hok : forall room, rooms st !! joinTarget msg = Some room ->
             keyHash room = "" \/ keyHash room = joinKey msg) :
  let rid := joinTarget msg in
  let others := filter (fun m => m ≠ pid) (members st rid) in
  let roster :=
    map (fun m => mkPeerInfo m (p_rtcSupported (getPeer st m)) (p_name (getPeer st m)))
        others in
  let w := Welcome pid rid roster (displayName (p_name p)) (deviceName (p_name p)) in
  (exists before after,
     wire (exec (joinRoom pid msg) st)
       = wire st ++ before ++ mkSend pid w (isOpen st pid) :: after /\
     (forall e, e ∈ before -> s_to e ≠ pid /\ s_msg e = PeerLeft pid) /\
     (forall e, e ∈ after -> s_to e ≠ pid /\
        s_msg e = PeerJoined (mkPeerInfo pid (joinRtc msg) (p_name p)))) /\
  NoDup others /\
  (forall m, m ∈ others <-> m ∈ members st rid /\ m ≠ pid) /\
  (forall m, m ∈ others ->
     exists pm, peers st !! m = Some pm /\ p_roomId pm = Some rid).
Proof.
  intros rid others roster w. pose proof (reachable_Inv st Hreach) as Hinv.
  pose proof (inv_ids _ _ Hinv _ _ Hp) as Hpid.
  split_and!.
  - unfold exec. rewrite joinRoom_eq by done. fold rid. set (key := joinKey msg).
    rewrite (rejects_false rid key st Hok).
    destruct (entered_effect pid p msg st Hp) as (Hoth & Hme & Hmem & es & Hw & Hes).
    fold rid key in Hoth, Hme, Hmem, Hw.
    set (st3 := enter pid rid key (joinRtc msg) (vacate pid rid (resolved rid key st))) in *.
    assert (Hwel : welcomeOf pid rid st3 = w).
    { unfold welcomeOf, w. rewrite Hmem, Hme. cbn [p_name]. f_equal.
      unfold roster. fold others. apply map_ext_in. intros m Hm%list_elem_of_In.
      unfold asPeerInfo. rewrite Hoth; [done|].
      unfold others in Hm. by apply list_elem_of_filter in Hm as [? _]. }
    assert (Hopen : isOpen st3 pid = isOpen st pid).
    { unfold isOpen. by rewrite Hme, (getPeer_lookup _ _ _ Hp). }
    unfold greet. rewrite Hopen, Hwel.
    destruct (isOpen st pid); cbn [snd].
    + exists es. eexists. split; [|split; [done|]].
      * unfold addWire. cbn [wire]. rewrite Hw, <- app_assoc. done.
      * intros e He. split.
        -- apply fanout_to in He. unfold recipients in He.
           apply nonEmpty_true in Hpid. rewrite Hpid in He.
           by apply list_elem_of_filter in He as [? _].
        -- apply fanout_msg in He. rewrite He. unfold asPeerInfo. by rewrite Hme.
    + exists es, []. split; [|split; [done|]].
      * unfold addWire. cbn [wire]. rewrite Hw, <- app_assoc. done.
      * by intros e ?%not_elem_of_nil.
  - unfold others, members. destruct (rooms st !! rid) as [room|] eqn:Hroom.
    + apply NoDup_filter. by eapply (inv_nodup _ _ Hinv).
    + rewrite filter_nil. apply NoDup_nil_2.
  - intros m. unfold others. by rewrite list_elem_of_filter, (comm and).
  - intros m Hm. unfold others in Hm. apply list_elem_of_filter in Hm as [_ Hm].
    unfold members in Hm. destruct (rooms st !! rid) as [room|] eqn:Hroom.
    + by eapply (inv_member _ _ Hinv).
    + by apply not_elem_of_nil in Hm.
Qed.

Lemma welcome_roster_witness :
  reachable demo /\ peers demo !! "C" = Some (getPeer demo "C") /\
  joinTarget (joinMsg " R1" "k1") ≠ "" /\
  exists before after,
    wire (exec (joinRoom "C" (joinMsg " R1" "k1")) demo)
    = wire demo ++ before
      ++ mkSend "C"
           (Welcome "C" "R1"
              [ mkPeerInfo "A" true (randomName 0 0 0);
                mkPeerInfo "B" true (randomName 1 1 1) ]
              "Silent-Panda" "Silent-Panda Tablet") true :: after.
Proof.
  split; [by_run demoEvents|]. split; [vm_compute; reflexivity|].
  split; [vm_compute; discriminate|].
  destruct (welcome_roster demo "C" (getPeer demo "C") (joinMsg " R1" "k1"))
    as ((before & after & Hw & _) & _).
  - by_run demoEvents.
  - vm_compute; reflexivity.
  - vm_compute; discriminate.
  - intros room Hroom. vm_compute in Hroom. injection Hroom as <-.
    right. reflexivity.
  - exists before, after. vm_compute in Hw. vm_compute. exact Hw.
Defined.

(** ** The admission secret *)

Lemma keyOf_addWire es st r : keyOf (addWire es st) r = keyOf st r.
Proof. done. Qed.

Lemma keyOf_leftState pid old room st r :
  rooms st !! old = Some room ->
  keyOf (leftState pid old room st) r = keyOf st r \/
  keyOf (leftState pid old room st) r = None.
Proof.
  intros Hroom. unfold keyOf, leftState. cbn.
  destruct (decide (r = old)) as [->|Hne].
  - case_decide.
    + right. by rewrite lookup_delete_eq.
    + left. by rewrite lookup_insert_eq, Hroom.
  - left. case_decide.
    + by rewrite lookup_delete_ne.
    + by rewrite lookup_insert_ne.
Qed.

Lemma keyOf_leaveRoom pid st r :
  keyOf (exec (leaveRoom pid) st) r = keyOf st r \/
  keyOf (exec (leaveRoom pid) st) r = None.
Proof.
  unfold exec.
  destruct (leaveRoom_cases pid st) as [-> | (old & room & _ & _ & Hroom & ->)];
    [by left | by apply keyOf_leftState].
Qed.

Lemma keyOf_vacate pid rid st r :
  keyOf (vacate pid rid st) r = keyOf st r \/ keyOf (vacate pid rid st) r = None.
Proof.
  destruct (vacate_cases pid rid st) as [-> | (old & room & _ & _ & _ & Hroom & ->)];
    [by left | by apply keyOf_leftState].
Qed.

Lemma keyOf_enter pid rid key rtc st r :
  keyOf (enter pid rid key rtc st) r = keyOf st r.
Proof.
  unfold keyOf, enter, updRoom, updPeer, setRooms, setPeers. cbn.
  rewrite lookup_alter. case_decide; [subst|done].
  by destruct (rooms st !! r).
Qed.

Lemma keyOf_resolved_set rid key st r k :
  keyOf st r = Some k -> k ≠ "" -> keyOf (resolved rid key st) r = Some k.
Proof.
  unfold keyOf, resolved. intros Hk Hne.
  destruct (rooms st !! rid) as [room|] eqn:Hroom.
  - destruct (negb (nonEmpty (keyHash room)) && nonEmpty key) eqn:Hc; [|done].
    unfold updRoom, setRooms. cbn. rewrite lookup_alter. case_decide; [|done].
    subst r. rewrite Hroom in Hk. cbn in Hk. injection Hk as Hk. subst k.
    apply andb_true_iff in Hc as [Hc _]. apply negb_true_iff, nonEmpty_false in Hc.
    done.
  - unfold setRooms. cbn. rewrite lookup_insert_ne; [done|].
    intros ->. by rewrite Hroom in Hk.
Qed.

Lemma keyOf_resolved_adopt rid key st :
  (forall room, rooms st !! rid = Some room -> keyHash room = "") ->
  keyOf (resolved rid key st) rid = Some key.
Proof.
  intros Hempty. unfold keyOf, resolved.
  destruct (rooms st !! rid) as [room|] eqn:Hroom.
  - rewrite (Hempty room eq_refl). cbn [nonEmpty String.eqb negb andb].
    destruct (nonEmpty key) eqn:Hk.
    + unfold updRoom, setRooms. cbn. by rewrite lookup_alter_eq, Hroom.
    + apply nonEmpty_false in Hk. subst key.
      rewrite Hroom. cbn. f_equal. by apply Hempty.
  - unfold setRooms. cbn. by rewrite lookup_insert_eq.
Qed.

Lemma keyOf_joinRoom pid msg st r k :
  keyOf st r = Some k -> k ≠ "" ->
  keyOf (exec (joinRoom pid msg) st) r = Some k \/
  keyOf (exec (joinRoom pid msg) st) r = None.
Proof.
  intros Hk Hne. unfold exec.
  destruct (decide (joinTarget msg = "")) as [Hdrop|Hrid].
  { rewrite joinRoom_dropped by done. by left. }
  rewrite joinRoom_eq by done.
  destruct (rejects (joinTarget msg) (joinKey msg) st).
  { rewrite send_eq. by left. }
  destruct (greet_state pid (joinTarget msg)
    (enter pid (joinTarget msg) (joinKey msg) (joinRtc msg)
       (vacate pid (joinTarget msg) (resolved (joinTarget msg) (joinKey msg) st))))
    as [es ->].
  rewrite keyOf_addWire, keyOf_enter.
  destruct (keyOf_vacate pid (joinTarget msg)
    (resolved (joinTarget msg) (joinKey msg) st) r) as [-> | ->]; [|by right].
  left. by apply keyOf_resolved_set.
Qed.

Lemma keyOf_handle e st r k :
  keyOf st r = Some k -> k ≠ "" ->
  keyOf (handle e st) r = Some k \/ keyOf (handle e st) r = None.
Proof.
  intros Hk Hne.
  assert (Hleave : forall pid,
    keyOf (exec (leaveRoom pid) st) r = Some k \/
    keyOf (exec (leaveRoom pid) st) r = None).
  { intros pid. destruct (keyOf_leaveRoom pid st r) as [-> | ->]; eauto. }
  destruct e as [pid ra rn rd|pid f|pid|pid|pid]; cbn [handle];
    [by left | | apply Hleave | apply Hleave | by left].
  unfold exec. rewrite onSocketMessage_eq.
  destruct f as [| |msg]; try (rewrite send_eq; by left).
  assert (Hm : keyOf (exec (onMessage pid msg) st) r = Some k \/
               keyOf (exec (onMessage pid msg) st) r = None).
  { unfold onMessage. destruct (m_type msg) as [| |b|t]; try by left.
    destruct (String.eqb t "join"); [by apply keyOf_joinRoom|].
    destruct (String.eqb t "signal").
    { destruct (relaySignal_state pid msg st) as [es ->]. by left. }
    destruct (String.eqb t "disconnect"); [apply Hleave|].
    destruct (String.eqb t "pong"); by left. }
  unfold exec in Hm. destruct (onMessage pid msg st) as [[a|] st1]; [done|].
  by rewrite send_eq.
Qed.

Lemma keyOf_handleAll evs st r k :
  keyOf st r = Some k -> k ≠ "" -> alive r evs st ->
  keyOf (handleAll evs st) r = Some k.
Proof.
  revert st. induction evs as [|e evs IH]; intros st Hk Hne Halive; [done|].
  destruct Halive as [[room Hroom] Halive]. cbn. apply IH; [|done|done].
  destruct (keyOf_handle e st r k Hk Hne) as [H|H]; [done|].
  unfold keyOf in H. by rewrite Hroom in H.
Qed.

(** C3. A join to a room whose admission secret is empty (or that does not
    exist yet), presenting the non-empty key K, is accepted and leaves the
    room with secret K and the peer among its members.  A non-empty secret
    stays what it is for as long as the room stays in the registry,
    whatever events are handled.  A join presenting a key that differs
    from a non-empty secret makes one send, the room-key-mismatch reply to
    the requester, and changes neither peers nor rooms. *)
Theorem admission_secret (st : State) (pid : string) (p : Peer) (msg : Msg)
    (Hp : peers st !! pid = Some p) (Hrid : joinTarget msg ≠ "") :
  let rid := joinTarget msg in
  let key := joinKey msg in
  let st' := exec (joinRoom pid msg) st in
  ((forall room, rooms st !! rid = Some room -> keyHash room = "") ->
   key ≠ "" ->
   exists room', rooms st' !! rid = Some room' /\ keyHash room' = key /\
     pid ∈ r_peers room' /\ p_roomId (getPeer st' pid) = Some rid) /\
  (forall evs r room,
     rooms st !! r = Some room -> keyHash room ≠ "" -> alive r evs st ->
     exists room', rooms (handleAll evs st) !! r = Some room' /\
       keyHash room' = keyHash room) /\
  (forall room,
     rooms st !! rid = Some room -> keyHash room ≠ "" -> key ≠ keyHash room ->
     st' = addWire [mkSend pid RoomKeyMismatch (isOpen st pid)] st).
Proof.
  intros rid key st'. split_and!.
  - intros Hempty Hkey. unfold st', exec. rewrite joinRoom_eq by done.
    fold rid key. rewrite rejects_false
      by (intros room Hroom; left; by apply Hempty).
    destruct (entered_effect pid p msg st Hp) as (_ & Hme & _ & _).
    fold rid key in Hme.
    set (st3 := enter pid rid key (joinRtc msg) (vacate pid rid (resolved rid key st))) in *.
    destruct (greet_state pid rid st3) as [es ->].
    assert (Hk : keyOf st3 rid = Some key).
    { unfold st3. rewrite keyOf_enter. unfold keyOf. rewrite vacate_rooms_rid.
      by apply keyOf_resolved_adopt. }
    assert (Hm : members st3 rid = peersSet pid (members (vacate pid rid (resolved rid key st)) rid)).
    { apply members_enter_rid. rewrite vacate_rooms_rid. apply resolved_rooms_rid. }
    unfold keyOf, members in Hk, Hm. cbn [rooms addWire].
    destruct (rooms st3 !! rid) as [room3|]; [|done].
    exists room3. split; [done|]. cbn in Hk. injection Hk as Hk.
    split; [done|]. split.
    + rewrite Hm. apply peersSet_elem. by right.
    + change (getPeer (addWire es st3) pid) with (getPeer st3 pid).
      by rewrite Hme.
  - intros evs r room Hroom Hne Halive.
    assert (Hk : keyOf st r = Some (keyHash room)) by (unfold keyOf; by rewrite Hroom).
    pose proof (keyOf_handleAll evs st r _ Hk Hne Halive) as Hk'.
    unfold keyOf in Hk'. destruct (rooms (handleAll evs st) !! r) as [room'|]; [|done].
    exists room'. split; [done|]. cbn in Hk'. congruence.
  - intros room Hroom Hne Hdiff. unfold st', exec. rewrite joinRoom_eq by done.
    fold rid key. rewrite (rejects_true rid key room st Hroom Hne Hdiff).
    by rewrite send_eq.
Qed.

Lemma admission_secret_witness :
  peers demo !! "C" = Some (getPeer demo "C") /\
  joinTarget (joinMsg "R1" "k2") ≠ "" /\
  exec (joinRoom "C" (joinMsg "R1" "k2")) demo
  = addWire [mkSend "C" RoomKeyMismatch true] demo.
Proof.
  split; [vm_compute; reflexivity|]. split; [vm_compute; discriminate|].
  destruct (admission_secret demo "C" (getPeer demo "C") (joinMsg "R1" "k2"))
    as (_ & _ & Hreject); [vm_compute; reflexivity | vm_compute; discriminate |].
  apply (Hreject (mkRoom "k1" ["A"; "B"]));
    [vm_compute; reflexivity | discriminate | vm_compute; discriminate].
Defined.

(** ** The order of the key check and the leave in a join *)

Lemma resolved_rooms_ne rid key st r :
  r ≠ rid -> rooms (resolved rid key st) !! r = rooms st !! r.
Proof.
  intros Hne. unfold resolved. destruct (rooms st !! rid) as [room|]; cbn.
  - destruct (negb (nonEmpty (keyHash room)) && nonEmpty key); [|done].
    unfold updRoom, setRooms. cbn. by rewrite lookup_alter_ne.
  - by rewrite lookup_insert_ne.
Qed.

Lemma resolved_getPeer rid key st pid : getPeer (resolved rid key st) pid = getPeer st pid.
Proof. unfold getPeer. by rewrite resolved_peers. Qed.

Lemma members_leftState pid old room st :
  members (leftState pid old room st) old = peersDelete pid (r_peers room).
Proof.
  unfold members, leftState. cbn. case_decide as Hrest.
  - by rewrite lookup_delete_eq.
  - by rewrite lookup_insert_eq.
Qed.

Lemma fanout_peers st st' payload l :
  peers st' = peers st -> fanout st' payload l = fanout st payload l.
Proof. intros H. unfold fanout, isOpen, getPeer. by rewrite H. Qed.

Lemma vacate_switch pid rid old room st :
  p_roomId (getPeer st pid) = Some old -> old ≠ "" -> old ≠ rid ->
  rooms st !! old = Some room ->
  vacate pid rid st = leftState pid old room st.
Proof.
  intros Hr Hne Hdiff Hroom. unfold vacate. rewrite Hr. cbn [optTruthy].
  apply nonEmpty_true in Hne as Hne'. rewrite Hne'.
  rewrite bool_decide_eq_false_2 by congruence. cbn [andb negb].
  unfold exec. by rewrite (leaveRoom_joined _ _ _ _ Hr Hne Hroom).
Qed.

(** An accepted join to another room has run the leave sequence for the
    room the peer was in. *)
Lemma joinRoom_switch st pid p msg old :
  Inv st -> peers st !! pid = Some p -> p_roomId p = Some old ->
  joinTarget msg ≠ "" -> joinTarget msg ≠ old ->
  rejects (joinTarget msg) (joinKey msg) st = false ->
  let st' := exec (joinRoom pid msg) st in
  p_roomId (getPeer st' pid) = Some (joinTarget msg) /\
  (pid ∉ members st' old) /\
  (pid ∈ members st' (joinTarget msg)) /\
  exists after,
    wire st' = wire st
      ++ fanout st (PeerLeft pid) (filter (fun m => m ≠ pid) (members st old))
      ++ after.
Proof.
  intros Hinv Hp Hold Hrid Hdiff Hacc st'.
  set (rid := joinTarget msg) in *. set (key := joinKey msg) in *.
  destruct (inv_joined _ _ Hinv _ _ _ Hp Hold) as (room & Hroom & Hin).
  pose proof (inv_rid _ _ Hinv _ _ Hroom) as Hne.
  assert (Hv : vacate pid rid (resolved rid key st)
               = leftState pid old room (resolved rid key st)).
  { apply vacate_switch; try done.
    - by rewrite resolved_getPeer, (getPeer_lookup _ _ _ Hp).
    - by rewrite resolved_rooms_ne. }
  destruct (entered_effect pid p msg st Hp) as (_ & Hme & _ & _).
  fold rid key in Hme.
  assert (Hst' : exists es, st' = addWire es
    (enter pid rid key (joinRtc msg) (leftState pid old room (resolved rid key st)))).
  { unfold st', exec. rewrite joinRoom_eq by done. fold rid key.
    rewrite Hacc, Hv.
    destruct (greet_state pid rid
      (enter pid rid key (joinRtc msg) (leftState pid old room (resolved rid key st))))
      as [es ->]. eauto. }
  destruct Hst' as (es & Hst'). rewrite Hv in Hme.
  set (st3 := enter pid rid key (joinRtc msg)
                (leftState pid old room (resolved rid key st))) in *.
  assert (Hold3 : members st3 old = peersDelete pid (r_peers room)).
  { unfold st3, members, enter, updRoom, updPeer, setRooms, setPeers. cbn [rooms].
    rewrite lookup_alter_ne by done.
    apply (members_leftState pid old room (resolved rid key st)). }
  assert (Hrid3 : pid ∈ members st3 rid).
  { unfold st3. rewrite members_enter_rid.
    - apply peersSet_elem. by right.
    - rewrite leftState_rooms_ne by done. apply resolved_rooms_rid. }
  rewrite Hst'. split_and!.
  - change (getPeer (addWire es st3) pid) with (getPeer st3 pid). by rewrite Hme.
  - change (members (addWire es st3) old) with (members st3 old).
    rewrite Hold3. intros [_ ?]%peersDelete_elem. done.
  - exact Hrid3.
  - exists es. unfold addWire, st3, enter, updRoom, updPeer, setRooms, setPeers.
    cbn [wire leftState]. rewrite resolved_wire, <- app_assoc.
    unfold members. rewrite Hroom.
    by rewrite (fanout_peers st (resolved rid key st)) by apply resolved_peers.
Qed.

(** C1, as the code has it.  The key check of a join comes before the
    leave.  A join that is rejected for key mismatch makes one send, the
    room-key-mismatch reply to the requester, and changes neither peers nor
    rooms: a peer Joined to [r1] is still Joined to [r1], whether it asked
    for [r1] or for another room, and no peer-left notice is sent.  A join
    to another room that is accepted has run the leave sequence for [r1]:
    the peer is out of [r1], whose remaining members were each sent a
    peer-left notice, and is in the room it asked for. *)
Theorem join_checks_key_before_leaving (st : State) (pid : string) (p : Peer)
    (msg : Msg) (r1 : string)
    (Hreach : reachable st) (Hp : peers st !! pid = Some p)
    (Hjoined : p_roomId p = Some r1) (Hrid : joinTarget msg ≠ "") :
  let rid := joinTarget msg in
  let st' := exec (joinRoom pid msg) st in
  (forall room,
     rooms st !! rid = Some room -> keyHash room ≠ "" ->
     joinKey msg ≠ keyHash room ->
     peers st' = peers st /\ rooms st' = rooms st /\
     wire st' = wire st ++ [mkSend pid RoomKeyMismatch (isOpen st pid)] /\
     p_roomId (getPeer st' pid) = Some r1 /\ pid ∈ members st' r1) /\
  ((forall room, rooms st !! rid = Some room ->
      keyHash room = "" \/ keyHash room = joinKey msg) ->
   rid ≠ r1 ->
   p_roomId (getPeer st' pid) = Some rid /\
   (pid ∉ members st' r1) /\ (pid ∈ members st' rid) /\
   exists after,
     wire st' = wire st
       ++ map (fun m => mkSend m (PeerLeft pid) (isOpen st m))
            (filter (fun m => m ≠ pid) (members st r1))
       ++ after).
Proof.
  intros rid st'. pose proof (reachable_Inv st Hreach) as Hinv. split.
  - intros room Hroom Hne Hdiff. unfold st', exec. rewrite joinRoom_eq by done.
    fold rid. rewrite (rejects_true rid _ room st Hroom Hne Hdiff), send_eq.
    cbn [snd]. split_and!; try done.
    + change (getPeer (addWire _ st) pid) with (getPeer st pid).
      by rewrite (getPeer_lookup _ _ _ Hp).
    + change (members (addWire ?es st) r1) with (members st r1).
      destruct (inv_joined _ _ Hinv _ _ _ Hp Hjoined) as (room1 & Hroom1 & Hin).
      unfold members. by rewrite Hroom1.
  - intros Hok Hdiff.
    apply (joinRoom_switch st pid p msg r1); try done.
    by apply rejects_false.
Qed.

Lemma join_checks_key_before_leaving_witness :
  reachable demo /\ peers demo !! "B" = Some (getPeer demo "B") /\
  p_roomId (getPeer demo "B") = Some "R1" /\
  joinTarget (joinMsg "R2" "k1") ≠ "" /\
  p_roomId (getPeer (exec (joinRoom "B" (joinMsg "R2" "k1")) demo) "B") = Some "R1".
Proof.
  split; [by_run demoEvents|]. split; [vm_compute; reflexivity|].
  split; [vm_compute; reflexivity|]. split; [vm_compute; discriminate|].
  destruct (join_checks_key_before_leaving demo "B" (getPeer demo "B")
    (joinMsg "R2" "k1") "R1") as (Hrej & _);
    [by_run demoEvents | vm_compute; reflexivity | vm_compute; reflexivity
    | vm_compute; discriminate |].
  destruct (Hrej (mkRoom "k2" ["C"])) as (_ & _ & _ & Hstill & _);
    [vm_compute; reflexivity | discriminate | vm_compute; discriminate |].
  exact Hstill.
Defined.

(** C1 with the leave ahead of the key check does not hold.  In [demo] the
    peer B is Joined to R1 with A, and R2 has the secret k2.  B asks for R2
    with the key k1 and is turned down.  Had the leave come first, B would
    be Unjoined and A would have been sent a peer-left notice; the worker
    has B still in R1 and the mismatch reply as its only send. *)
Lemma rejected_switch_counterexample :
  let st' := exec (onSocketMessage "B" (Decoded (joinMsg "R2" "k1"))) demo in
  reachable demo /\
  p_roomId (getPeer demo "B") = Some "R1" /\
  joinTarget (joinMsg "R2" "k1") = "R2" /\
  keyOf demo "R2" = Some "k2" /\
  joinKey (joinMsg "R2" "k1") = "k1" /\
  p_roomId (getPeer st' "B") ≠ None /\
  members st' "R1" = ["A"; "B"] /\
  wire st' = wire demo ++ [mkSend "B" RoomKeyMismatch true].
Proof.
  cbv zeta. split; [by_run demoEvents|].
  repeat split; try (vm_compute; reflexivity).
  vm_compute. discriminate.
Qed.

(** ** The error notice *)

(** A frame that [JSON.parse] rejects: one send, the error notice to the
    sender, and neither peers nor rooms change. *)
Lemma undecodable_frame pid st :
  exec (onSocketMessage pid Undecodable) st
  = addWire [mkSend pid invalidJson (isOpen st pid)] st.
Proof. unfold exec. by rewrite onSocketMessage_eq, send_eq. Qed.

(** C8, at the failing inputs.  The notice for frames that are not JSON also
    goes out for frames that are: the [catch] of the listener covers
    [onMessage] as well.  With B in A's room and B's socket stale, a signal
    from A to B fails to send and A is told its message was invalid JSON;
    so is the sender of the frame [null]. *)
Theorem decoded_frame_reported_invalid :
  reachable staleDemo /\
  exec (onSocketMessage "A" (Decoded (signalMsg "B" (Some "offer") None))) staleDemo
  = addWire [ mkSend "B" (Signal "A" (Some "offer") None) false;
              mkSend "A" invalidJson true ] staleDemo /\
  exec (onSocketMessage "A" DecodedNull) demo
  = addWire [mkSend "A" invalidJson true] demo.
Proof.
  split; [by_run staleEvents|]. split; vm_compute; reflexivity.
Qed.

(** ** Where rooms come from *)

Lemma leftState_rooms_none pid old room st r :
  rooms st !! old = Some room -> rooms st !! r = None ->
  rooms (leftState pid old room st) !! r = None.
Proof.
  intros Hroom Hr. rewrite leftState_rooms_ne; [done|]. congruence.
Qed.

Lemma leaveRoom_rooms_none pid st r :
  rooms st !! r = None -> rooms (exec (leaveRoom pid) st) !! r = None.
Proof.
  intros Hr. unfold exec.
  destruct (leaveRoom_cases pid st) as [-> | (old & room & _ & _ & Hroom & ->)];
    [done | by apply leftState_rooms_none].
Qed.

Lemma joinRoom_rooms_none pid msg st r :
  joinTarget msg ≠ r -> rooms st !! r = None ->
  rooms (exec (joinRoom pid msg) st) !! r = None.
Proof.
  intros Hne Hr. unfold exec.
  destruct (decide (joinTarget msg = "")) as [Hdrop|Hrid].
  { by rewrite joinRoom_dropped. }
  rewrite joinRoom_eq by done.
  destruct (rejects (joinTarget msg) (joinKey msg) st).
  { by rewrite send_eq. }
  set (rid := joinTarget msg) in *. set (key := joinKey msg).
  destruct (greet_state pid rid
    (enter pid rid key (joinRtc msg) (vacate pid rid (resolved rid key st))))
    as [es ->].
  unfold addWire, enter, updRoom, updPeer, setRooms, setPeers. cbn [rooms].
  rewrite lookup_alter_ne by done.
  assert (Ha : rooms (resolved rid key st) !! r = None)
    by (rewrite resolved_rooms_ne; [done | congruence]).
  destruct (vacate_cases pid rid (resolved rid key st))
    as [-> | (old & room & _ & _ & _ & Hroom & ->)];
    [done | by apply leftState_rooms_none].
Qed.

Lemma fetch_upgrade pid ra rn rd st :
  fetch (Some "websocket") pid ra rn rd st
  = (Switching101, setPeers (insert pid (newPeer (randomName ra rn rd))) st).
Proof. reflexivity. Qed.

Lemma room_created_by_join e st r :
  rooms st !! r = None -> is_Some (rooms (handle e st) !! r) ->
  exists pid msg,
    e = EvMessage pid (Decoded msg) /\ m_type msg = JStr "join" /\
    joinTarget msg = r.
Proof.
  intros Hr [room Hroom].
  destruct e as [pid ra rn rd|pid f|pid|pid|pid]; cbn [handle] in Hroom.
  - rewrite fetch_upgrade in Hroom. cbn in Hroom. congruence.
  - unfold exec in Hroom. rewrite onSocketMessage_eq in Hroom.
    destruct f as [| |msg]; try (rewrite send_eq in Hroom; cbn in Hroom; congruence).
    assert (Hm : rooms (exec (onMessage pid msg) st) !! r = Some room).
    { unfold exec. destruct (onMessage pid msg st) as [[a|] st1]; [done|].
      by rewrite send_eq in Hroom. }
    clear Hroom. unfold onMessage in Hm.
    destruct (m_type msg) as [| |b|t] eqn:Ht; try (cbn in Hm; congruence).
    destruct (String.eqb_spec t "join") as [->|_].
    + destruct (decide (joinTarget msg = r)) as [Heq|Hne]; [by exists pid, msg|].
      rewrite joinRoom_rooms_none in Hm by done. done.
    + destruct (String.eqb t "signal").
      { destruct (relaySignal_state pid msg st) as [es Hes].
        rewrite Hes in Hm. cbn in Hm. congruence. }
      destruct (String.eqb t "disconnect").
      { rewrite leaveRoom_rooms_none in Hm by done. done. }
      destruct (String.eqb t "pong"); cbn in Hm; congruence.
  - unfold onSocketClose in Hroom. rewrite leaveRoom_rooms_none in Hroom by done. done.
  - unfold onSocketError in Hroom. rewrite leaveRoom_rooms_none in Hroom by done. done.
  - cbn in Hroom. congruence.
Qed.

(** C4. After every operation every room of the registry has at least one
    member: this holds in every reachable state and so in the state any
    event leaves behind.  A room that was not in the registry before an
    event and is there after it was made by a join message for that room
    id, and holds a member when the operation is over. *)
Theorem no_empty_room (st : State) (Hreach : reachable st) :
  (forall rid room, rooms st !! rid = Some room -> r_peers room ≠ []) /\
  (forall e rid room,
     enabled e st = true -> rooms (handle e st) !! rid = Some room ->
     r_peers room ≠ [] /\
     (rooms st !! rid = None ->
      exists pid msg,
        e = EvMessage pid (Decoded msg) /\ m_type msg = JStr "join" /\
        joinTarget msg = rid)).
Proof.
  split.
  - intros rid room Hroom.
    by apply (inv_nonempty _ _ (reachable_Inv st Hreach) rid room).
  - intros e rid room Hen Hroom. split.
    + assert (Hnext : reachable (handle e st)) by by apply reachable_step.
      by apply (inv_nonempty _ _ (reachable_Inv _ Hnext) rid room).
    + intros Hnone. apply (room_created_by_join e st rid Hnone). by eexists.
Qed.

Lemma no_empty_room_witness :
  reachable demo /\
  forall rid room, rooms demo !! rid = Some room -> r_peers room ≠ [].
Proof.
  split; [by_run demoEvents | apply (no_empty_room demo); by_run demoEvents].
Defined.

(** ** Sends that cannot fail *)

Lemma joinRoom_completes pid p msg st :
  peers st !! pid = Some p -> isOpen st pid = true ->
  completion (joinRoom pid msg) st = Normal tt.
Proof.
  intros Hp Ho. unfold completion.
  destruct (decide (joinTarget msg = "")) as [Hdrop|Hrid].
  { by rewrite joinRoom_dropped. }
  rewrite joinRoom_eq by done.
  destruct (rejects (joinTarget msg) (joinKey msg) st).
  { by rewrite send_eq, Ho. }
  destruct (entered_effect pid p msg st Hp) as (_ & Hme & _ & _).
  unfold greet, isOpen at 1. rewrite Hme. cbn [socket].
  unfold isOpen in Ho. rewrite (getPeer_lookup _ _ _ Hp) in Ho.
  by destruct (socket p).
Qed.

(** With every socket open no handler throws, so a decoded message is never
    answered with the error notice. *)
Lemma onMessage_completes pid p msg st :
  peers st !! pid = Some p ->
  (forall m, isOpen st m = true) ->
  completion (onMessage pid msg) st = Normal tt.
Proof.
  intros Hp Hopen. unfold onMessage.
  destruct (m_type msg) as [| |b|t]; try done.
  destruct (String.eqb t "join"); [by eapply joinRoom_completes|].
  destruct (String.eqb t "signal").
  { unfold completion. rewrite relaySignal_eq.
    destruct (p_roomId (getPeer st pid)) as [rid|]; [|done].
    destruct (rooms st !! rid) as [room|]; [|done].
    destruct (m_to msg) as [| |b|target]; try done.
    destruct (nonEmpty rid && bool_decide (target ∈ r_peers room)); [|done].
    by rewrite send_eq, Hopen. }
  destruct (String.eqb t "disconnect"); [apply leaveRoom_normal|].
  by destruct (String.eqb t "pong").
Qed.

(** ** Broadcast *)

(** C9. A broadcast completes normally whatever the sockets do, changes
    neither peers nor rooms, and makes one send of the same payload to
    every member of the room other than the excluded id, in the order of
    the member map; each send goes through or fails with the state of its
    own socket alone, so every addressed member whose socket is open gets
    the payload, and nothing else is sent.  The operations that broadcast
    therefore complete normally whatever the sockets of the other members
    do (a leave always, a join when the joiner's own socket is open), and
    the listener does not answer them with the error notice. *)
Theorem broadcast_independent (st : State) (room : Room) (payload : OutMsg)
    (exceptId : option string) (Hex : exceptId ≠ Some "") :
  let st' := exec (broadcast room payload exceptId) st in
  let targets := filter (fun m => Some m ≠ exceptId) (r_peers room) in
  completion (broadcast room payload exceptId) st = Normal tt /\
  peers st' = peers st /\ rooms st' = rooms st /\
  wire st' = wire st ++ map (fun m => mkSend m payload (isOpen st m)) targets /\
  (forall m, m ∈ r_peers room -> Some m ≠ exceptId -> isOpen st m = true ->
     mkSend m payload true ∈ wire st') /\
  (forall e, e ∈ wire st' -> e ∈ wire st \/ s_msg e = payload) /\
  (forall pid p msg,
     peers st !! pid = Some p -> isOpen st pid = true ->
     m_type msg = JStr "join" \/ m_type msg = JStr "disconnect" ->
     onSocketMessage pid (Decoded msg) st = (Normal tt, exec (onMessage pid msg) st)).
Proof.
  intros st' targets. unfold st', completion, exec.
  rewrite broadcast_eq, recipients_filter by done. cbn [fst snd].
  fold targets. split_and!; try done.
  - intros m Hm Hne Ho. cbn. apply elem_of_app. right.
    apply list_elem_of_fmap. exists m. split; [by rewrite Ho|].
    unfold targets. by rewrite list_elem_of_filter.
  - intros e. cbn. rewrite elem_of_app. intros [?|He]; [by left|right].
    apply list_elem_of_fmap in He as (m & -> & _). done.
  - intros pid p msg Hp Ho Htype. rewrite onSocketMessage_eq.
    assert (Hc : completion (onMessage pid msg) st = Normal tt).
    { unfold onMessage. destruct Htype as [-> | ->]; cbn.
      - by eapply joinRoom_completes.
      - apply leaveRoom_normal. }
    unfold completion in Hc.
    destruct (onMessage pid msg st) as [c st1]. cbn in Hc. by subst c.
Qed.

Lemma broadcast_independent_witness :
  Some "B" ≠ Some "" /\
  completion (broadcast (mkRoom "k1" ["A"; "B"; "C"]) (PeerLeft "Z") (Some "B"))
    (updPeer "A" (withSocket SockClosed) demo) = Normal tt /\
  mkSend "C" (PeerLeft "Z") true
    ∈ wire (exec (broadcast (mkRoom "k1" ["A"; "B"; "C"]) (PeerLeft "Z") (Some "B"))
              (updPeer "A" (withSocket SockClosed) demo)).
Proof.
  split; [discriminate|].
  pose proof (broadcast_independent (updPeer "A" (withSocket SockClosed) demo)
    (mkRoom "k1" ["A"; "B"; "C"]) (PeerLeft "Z") (Some "B")) as H.
  destruct H as (Hc & _ & _ & _ & Hd & _); [discriminate|].
  split; [exact Hc|].
  apply Hd; [do 2 right; left | discriminate | vm_compute; reflexivity].
Defined.

(** * Further properties of the worker *)

(** ** Room ids are trimmed *)

Lemma allWhite_trimStart s : allWhite (trimStart s) = allWhite s.
Proof.
  induction s as [|a r IH]; [done|]. cbn.
  destruct (isWhite a) eqn:Ha; [done|]. cbn. by rewrite Ha.
Qed.

Lemma trimStart_empty s : trimStart s = "" <-> allWhite s = true.
Proof.
  induction s as [|a r IH]; [done|]. cbn.
  destruct (isWhite a); [done|]. split; discriminate.
Qed.

Lemma trimEnd_empty s : trimEnd s = "" <-> allWhite s = true.
Proof.
  induction s as [|a r IH]; [done|]. cbn.
  destruct (trimEnd r) as [|b t] eqn:Hr.
  - destruct (isWhite a); cbn.
    + split; [intros _; by apply IH | done].
    + split; discriminate.
  - split; [discriminate|]. intros [_ Hw]%andb_true_iff.
    apply IH in Hw. discriminate.
Qed.

Lemma trim_empty s : trim s = "" <-> allWhite s = true.
Proof. unfold trim. by rewrite trimEnd_empty, allWhite_trimStart. Qed.

Lemma trimEnd_idem s : trimEnd (trimEnd s) = trimEnd s.
Proof.
  induction s as [|a r IH]; [done|]. cbn.
  destruct (trimEnd r) as [|b t] eqn:Hr.
  - destruct (isWhite a) eqn:Ha; [done|]. cbn. by rewrite Ha.
  - cbn [trimEnd]. cbn [trimEnd] in IH. by rewrite IH.
Qed.

Lemma headOk_trimStart s : headOk (trimStart s) = true.
Proof.
  induction s as [|a r IH]; [done|]. cbn.
  destruct (isWhite a) eqn:Ha; [done|]. cbn. by rewrite Ha.
Qed.

Lemma trimStart_headOk s : headOk s = true -> trimStart s = s.
Proof.
  destruct s as [|a r]; [done|]. cbn. by intros ->%negb_true_iff.
Qed.

Lemma headOk_trimEnd s : headOk s = true -> headOk (trimEnd s) = true.
Proof.
  destruct s as [|a r]; [done|]. cbn. intros Ha.
  destruct (trimEnd r); [|done].
  apply negb_true_iff in Ha. by rewrite Ha; cbn; rewrite Ha.
Qed.

Lemma trim_idem s : trim (trim s) = trim s.
Proof.
  unfold trim. rewrite (trimStart_headOk (trimEnd (trimStart s))).
  - apply trimEnd_idem.
  - apply headOk_trimEnd, headOk_trimStart.
Qed.

Lemma joinTarget_trimmed msg : trim (joinTarget msg) = joinTarget msg.
Proof. unfold joinTarget. apply trim_idem. Qed.

Lemma reachable_rooms_trimmed st :
  reachable st -> forall rid room, rooms st !! rid = Some room -> trim rid = rid.
Proof.
  induction 1 as [|st e _ IH Hen]; intros rid room Hroom.
  - cbn in Hroom. by rewrite lookup_empty in Hroom.
  - destruct (rooms st !! rid) as [room0|] eqn:Hold; [by eapply IH|].
    destruct (room_created_by_join e st rid Hold) as (pid & msg & _ & _ & <-);
      [by eexists|].
    apply joinTarget_trimmed.
Qed.

(** X1. Every room id of the registry, and the room id every peer
    records, is non-empty and is its own trim: room ids differing only in
    surrounding white space name the same room. *)
Theorem room_ids_trimmed (st : State) (Hreach : reachable st) :
  (forall rid room, rooms st !! rid = Some room -> rid ≠ "" /\ trim rid = rid) /\
  (forall pid p rid, peers st !! pid = Some p -> p_roomId p = Some rid ->
     rid ≠ "" /\ trim rid = rid) /\
  (forall msg, joinTarget msg = trim (joinTarget msg)).
Proof.
  pose proof (reachable_Inv st Hreach) as Hinv. split_and!.
  - intros rid room Hroom. split; [by eapply (inv_rid _ _ Hinv)|].
    by eapply reachable_rooms_trimmed.
  - intros pid p rid Hp Hr.
    destruct (inv_joined _ _ Hinv _ _ _ Hp Hr) as (room & Hroom & _).
    split; [by eapply (inv_rid _ _ Hinv)|].
    by eapply reachable_rooms_trimmed.
  - intros msg. by rewrite joinTarget_trimmed.
Qed.

Lemma room_ids_trimmed_witness :
  reachable demo /\
  forall rid room, rooms demo !! rid = Some room -> rid ≠ "" /\ trim rid = rid.
Proof.
  split; [by_run demoEvents | apply (room_ids_trimmed demo); by_run demoEvents].
Defined.

(** ** Messages that are dropped *)

Lemma joinTarget_empty msg :
  joinTarget msg = "" <->
  truthy (m_roomId msg) = false \/
  exists s, m_roomId msg = JStr s /\ allWhite s = true.
Proof.
  unfold joinTarget, js_or. rewrite trim_empty.
  destruct (m_roomId msg) as [| |b|s]; cbn.
  - split; [by left | done].
  - split; [by left | done].
  - destruct b; cbn.
    + split; [done|]. intros [? | (s & ? & _)]; done.
    + split; [by left | done].
  - destruct (String.eqb_spec s "") as [->|Hne]; cbn.
    + split; [by left | done].
    + split; [intros Hw; right; by exists s|].
      intros [? | (s' & [= <-] & Hw)]; done.
Qed.

(** X2. A join is dropped exactly when its [roomId] is missing, [null],
    [false], the empty string or a string of white space only; the listener
    then changes nothing and sends nothing, not even an error notice. *)
Theorem join_without_room_dropped (st : State) (pid : string) (msg : Msg)
    (Htype : m_type msg = JStr "join")
    (Hroom : truthy (m_roomId msg) = false \/
             exists s, m_roomId msg = JStr s /\ allWhite s = true) :
  onSocketMessage pid (Decoded msg) st = (Normal tt, st) /\
  (forall msg', joinTarget msg' = "" <->
     truthy (m_roomId msg') = false \/
     exists s, m_roomId msg' = JStr s /\ allWhite s = true).
Proof.
  split; [|apply joinTarget_empty].
  apply joinTarget_empty in Hroom.
  rewrite onSocketMessage_eq. unfold onMessage. rewrite Htype. cbn.
  by rewrite joinRoom_dropped.
Qed.

Lemma join_without_room_dropped_witness :
  m_type (joinMsg "   " "k1") = JStr "join" /\
  onSocketMessage "A" (Decoded (joinMsg "   " "k1")) demo = (Normal tt, demo).
Proof.
  split; [reflexivity|].
  apply (join_without_room_dropped demo "A" (joinMsg "   " "k1"));
    [reflexivity | right; exists "   "; split; reflexivity].
Defined.

(** X3. A decoded message whose [type] is none of join, signal and
    disconnect (a pong, an unknown or a missing type) is ignored: the
    listener changes nothing and sends nothing. *)
Theorem other_types_ignored (st : State) (pid : string) (msg : Msg)
    (Hj : m_type msg ≠ JStr "join") (Hs : m_type msg ≠ JStr "signal")
    (Hd : m_type msg ≠ JStr "disconnect") :
  onSocketMessage pid (Decoded msg) st = (Normal tt, st).
Proof.
  rewrite onSocketMessage_eq. unfold onMessage.
  destruct (m_type msg) as [| |b|t]; try done.
  destruct (String.eqb_spec t "join") as [->|_]; [done|].
  destruct (String.eqb_spec t "signal") as [->|_]; [done|].
  destruct (String.eqb_spec t "disconnect") as [->|_]; [done|].
  by destruct (String.eqb t "pong").
Qed.

Lemma other_types_ignored_witness :
  onSocketMessage "A"
    (Decoded (mkMsg (JStr "pong") JUndefined JUndefined JUndefined JUndefined
                None None)) demo
  = (Normal tt, demo).
Proof.
  apply (other_types_ignored demo "A"); discriminate.
Defined.

(** ** An accepted join, in full *)

Lemma keyOf_resolved_accepted rid key st :
  rejects rid key st = false -> keyOf (resolved rid key st) rid = Some key.
Proof.
  unfold rejects, keyOf, resolved. intros Hacc.
  destruct (rooms st !! rid) as [room|] eqn:Hroom.
  - destruct (nonEmpty (keyHash room)) eqn:Hk; cbn in *.
    + apply negb_false_iff, String.eqb_eq in Hacc. subst key.
      by rewrite Hroom.
    + apply nonEmpty_false in Hk. destruct (nonEmpty key) eqn:Hkey.
      * unfold updRoom, setRooms. cbn. by rewrite lookup_alter_eq, Hroom.
      * apply nonEmpty_false in Hkey. rewrite Hroom. cbn. congruence.
  - unfold setRooms. cbn. by rewrite lookup_insert_eq.
Qed.

Lemma vacate_resolved_wire pid p rid key st :
  Inv st -> peers st !! pid = Some p -> rid ≠ "" ->
  wire (vacate pid rid (resolved rid key st))
  = wire st ++
    (if optTruthy (p_roomId p) && negb (bool_decide (p_roomId p = Some rid))
     then fanout st (PeerLeft pid) (filter (fun m => m ≠ pid) (ownRoom st pid))
     else []).
Proof.
  intros Hinv Hp Hrid. unfold vacate.
  rewrite resolved_getPeer, (getPeer_lookup _ _ _ Hp).
  destruct (optTruthy (p_roomId p) && negb (bool_decide (p_roomId p = Some rid)))
    eqn:Hc; [|by rewrite resolved_wire, app_nil_r].
  destruct (p_roomId p) as [old|] eqn:Hold; [|done].
  apply andb_true_iff in Hc as [_ Hdiff].
  apply negb_true_iff, bool_decide_eq_false in Hdiff.
  assert (old ≠ rid) as Hor by congruence.
  destruct (inv_joined _ _ Hinv _ _ _ Hp Hold) as (room & Hroom & _).
  pose proof (inv_rid _ _ Hinv _ _ Hroom) as Hne.
  assert (Hr : p_roomId (getPeer (resolved rid key st) pid) = Some old)
    by by rewrite resolved_getPeer, (getPeer_lookup _ _ _ Hp).
  assert (Hroom1 : rooms (resolved rid key st) !! old = Some room)
    by by rewrite resolved_rooms_ne.
  unfold exec. rewrite (leaveRoom_joined _ _ _ _ Hr Hne Hroom1).
  unfold leftState. cbn [snd wire]. rewrite resolved_wire.
  rewrite (fanout_peers st (resolved rid key st)) by apply resolved_peers.
  unfold ownRoom, members.
  by rewrite (getPeer_lookup _ _ _ Hp), Hold, Hroom.
Qed.

(** What an accepted join leaves: the peer's record, the room joined, the
    sends, and how it completed. *)
Lemma joinRoom_accepted st pid p msg :
  Inv st -> peers st !! pid = Some p ->
  joinTarget msg ≠ "" ->
  rejects (joinTarget msg) (joinKey msg) st = false ->
  let rid := joinTarget msg in
  let st' := exec (joinRoom pid msg) st in
  peers st' = <[pid := mkPeer (socket p) (Some rid) (joinKey msg) (p_name p)
                         (joinRtc msg)]> (peers st) /\
  rooms st' !! rid = Some (mkRoom (joinKey msg) (peersSet pid (members st rid))) /\
  wire st' = wire st ++ joinSends st pid msg /\
  completion (joinRoom pid msg) st = if isOpen st pid then Normal tt else Throw.
Proof.
  intros Hinv Hp Hrid Hacc rid st'. set (key := joinKey msg) in *.
  fold rid in Hacc, Hrid.
  pose proof (inv_ids _ _ Hinv _ _ Hp) as Hpid.
  destruct (entered_effect pid p msg st Hp) as (Hoth & Hme & Hmem & _).
  fold rid key in Hoth, Hme, Hmem.
  pose proof (vacate_resolved_wire pid p rid key st Hinv Hp Hrid) as Hw.
  assert (Hroom1 : rooms (vacate pid rid (resolved rid key st)) !! rid
                   = Some (mkRoom key (members st rid))).
  { rewrite vacate_rooms_rid.
    pose proof (keyOf_resolved_accepted rid key st Hacc) as Hk.
    pose proof (resolved_members rid key st) as Hm.
    unfold keyOf in Hk. unfold members at 1 in Hm.
    destruct (rooms (resolved rid key st) !! rid) as [[k l]|]; [|done].
    cbn in Hk, Hm. congruence. }
  set (st3 := enter pid rid key (joinRtc msg) (vacate pid rid (resolved rid key st))) in *.
  assert (Hjoin : joinRoom pid msg st = greet pid rid st3).
  { rewrite joinRoom_eq by done. fold rid key. by rewrite Hacc. }
  assert (Hopen : isOpen st3 pid = isOpen st pid).
  { unfold isOpen. by rewrite Hme, (getPeer_lookup _ _ _ Hp). }
  assert (Hwel : welcomeOf pid rid st3
    = Welcome pid rid
        (map (asPeerInfo st) (filter (fun m => m ≠ pid) (members st rid)))
        (displayName (p_name p)) (deviceName (p_name p))).
  { unfold welcomeOf. rewrite Hmem, Hme. cbn [p_name]. f_equal.
    apply map_ext_in. intros m Hm%list_elem_of_In.
    unfold asPeerInfo. rewrite Hoth; [done|].
    by apply list_elem_of_filter in Hm as [? _]. }
  assert (Hfan : fanout st3 (PeerJoined (asPeerInfo st3 pid))
                   (recipients (Some pid) (members st3 rid))
    = fanout st (PeerJoined (mkPeerInfo pid (joinRtc msg) (p_name p)))
        (filter (fun m => m ≠ pid) (members st rid))).
  { unfold recipients. apply nonEmpty_true in Hpid as Hpid'. rewrite Hpid', Hmem.
    unfold asPeerInfo at 1. rewrite Hme. cbn [p_rtcSupported p_name].
    unfold fanout. apply map_ext_in. intros m Hm%list_elem_of_In.
    unfold isOpen. rewrite Hoth; [done|].
    by apply list_elem_of_filter in Hm as [? _]. }
  assert (Hw3 : wire st3 = wire (vacate pid rid (resolved rid key st))) by done.
  unfold st', exec, completion. rewrite Hjoin. unfold greet.
  rewrite Hopen, Hwel, Hfan. split_and!.
  - assert (Hp3 : peers st3
      = <[pid := mkPeer (socket p) (Some rid) key (p_name p) (joinRtc msg)]> (peers st)).
    { apply map_eq. intros q. unfold st3. rewrite enter_peers, lookup_insert.
      destruct (decide (pid = q)) as [Hq|Hq].
      - assert (Hgp : getPeer st3 pid
          = mkPeer (socket p) (Some rid) key (p_name p) (joinRtc msg)) by exact Hme.
        unfold getPeer, st3 in Hgp. rewrite enter_peers, decide_True in Hgp by done.
        cbn in Hgp. by rewrite Hgp.
      - destruct (vacate_effect pid rid (resolved rid key st)) as (Hq' & _ & _).
        rewrite Hq' by done. by rewrite resolved_peers. }
    by destruct (isOpen st pid).
  - assert (Hr3 : rooms st3 !! rid = Some (mkRoom key (peersSet pid (members st rid)))).
    { unfold st3. by rewrite (members_enter _ _ _ _ _ _ Hroom1). }
    by destruct (isOpen st pid).
  - unfold joinSends. fold rid. rewrite (getPeer_lookup _ _ _ Hp).
    destruct (isOpen st pid); cbn [snd addWire wire]; rewrite Hw3, Hw, <- app_assoc; done.
  - by destruct (isOpen st pid).
Qed.

(** ** What an event of one connection leaves alone *)



Lemma joinRoom_peers_frame pid msg st q :
  q ≠ pid -> peers (exec (joinRoom pid msg) st) !! q = peers st !! q.
Proof.
  intros Hq. unfold exec.
  destruct (decide (joinTarget msg = "")) as [Hdrop|Hrid].
  { by rewrite joinRoom_dropped. }
  rewrite joinRoom_eq by done.
  destruct (rejects (joinTarget msg) (joinKey msg) st).
  { by rewrite send_eq. }
  set (rid := joinTarget msg). set (key := joinKey msg).
  destruct (greet_state pid rid
    (enter pid rid key (joinRtc msg) (vacate pid rid (resolved rid key st))))
    as [es ->].
  cbn [addWire peers]. rewrite enter_peers, decide_False by done.
  destruct (vacate_effect pid rid (resolved rid key st)) as (Hoth & _ & _).
  by rewrite Hoth, resolved_peers.
Qed.

Lemma joinRoom_rooms_frame pid msg st r :
  r ≠ joinTarget msg -> Some r ≠ p_roomId (getPeer st pid) ->
  rooms (exec (joinRoom pid msg) st) !! r = rooms st !! r.
Proof.
  intros Hne Hr. unfold exec.
  destruct (decide (joinTarget msg = "")) as [Hdrop|Hrid].
  { by rewrite joinRoom_dropped. }
  rewrite joinRoom_eq by done.
  destruct (rejects (joinTarget msg) (joinKey msg) st).
  { by rewrite send_eq. }
  set (rid := joinTarget msg) in *. set (key := joinKey msg).
  destruct (greet_state pid rid
    (enter pid rid key (joinRtc msg) (vacate pid rid (resolved rid key st))))
    as [es ->].
  unfold addWire, enter, updRoom, updPeer, setRooms, setPeers. cbn [rooms].
  rewrite lookup_alter_ne by done.
  destruct (vacate_cases pid rid (resolved rid key st))
    as [-> | (old & room & Hold & _ & _ & _ & ->)].
  - by apply resolved_rooms_ne.
  - rewrite resolved_getPeer in Hold.
    rewrite leftState_rooms_ne by congruence. by apply resolved_rooms_ne.
Qed.



(** The state the listener leaves differs from the one [onMessage] leaves
    by sends only. *)
Lemma onSocketMessage_state pid msg st :
  exists es, exec (onSocketMessage pid (Decoded msg)) st
             = addWire es (exec (onMessage pid msg) st).
Proof.
  unfold exec. rewrite onSocketMessage_eq.
  destruct (onMessage pid msg st) as [[a|] st1]; cbn [snd].
  - exists []. by rewrite addWire_nil.
  - rewrite send_eq. by eexists.
Qed.






(** X5. An accepted join, in full.  The peer's record gets the room id,
    the key presented and the capability flag of the message; the room
    joined has the key presented as its secret and the peer in its member
    map, at the end if it is new and where it was otherwise.  The sends
    are, in this order, the peer-left notices to the room left, the welcome,
    and one peer-joined notice to each other member of the room joined; if
    the joiner's socket is not open the welcome throws, the operation
    completes abruptly and no peer-joined notice goes out, although the
    peer is in the room. *)
Theorem accepted_join_effect (st : State) (pid : string) (p : Peer) (msg : Msg)
    (Hreach : reachable st) (Hp : peers st !! pid = Some p)
    (Hrid : joinTarget msg ≠ "")
    (Hok : forall room, rooms st !! joinTarget msg = Some room ->
             keyHash room = "" \/ keyHash room = joinKey msg) :
  let rid := joinTarget msg in
  let st' := exec (joinRoom pid msg) st in
  peers st' = <[pid := mkPeer (socket p) (Some rid) (joinKey msg) (p_name p)
                         (joinRtc msg)]> (peers st) /\
  rooms st' !! rid = Some (mkRoom (joinKey msg) (peersSet pid (members st rid))) /\
  wire st' = wire st ++ joinSends st pid msg /\
  completion (joinRoom pid msg) st = (if isOpen st pid then Normal tt else Throw) /\
  (isOpen st pid = true ->
   forall m, m ∈ members st rid -> m ≠ pid ->
     mkSend m (PeerJoined (mkPeerInfo pid (joinRtc msg) (p_name p))) (isOpen st m)
       ∈ wire st') /\
  (isOpen st pid = false ->
   forall e info, e ∈ joinSends st pid msg -> s_msg e ≠ PeerJoined info).
Proof.
  intros rid st'. pose proof (reachable_Inv st Hreach) as Hinv.
  destruct (joinRoom_accepted st pid p msg Hinv Hp Hrid
              (rejects_false _ _ _ Hok)) as (Hpeers & Hroom & Hwire & Hc).
  fold rid st' in Hpeers, Hroom, Hwire.
  split_and!; try done.
  - intros Ho m Hm Hne. rewrite Hwire. unfold joinSends. fold rid.
    rewrite (getPeer_lookup _ _ _ Hp), Ho.
    apply elem_of_app. right. apply elem_of_app. right.
    apply list_elem_of_further. apply list_elem_of_fmap. exists m.
    split; [done|]. by apply list_elem_of_filter.
  - intros Ho e info. unfold joinSends. fold rid. rewrite Ho.
    rewrite elem_of_app, list_elem_of_singleton.
    intros [He | ->].
    + destruct (_ && _); [|by apply not_elem_of_nil in He].
      apply fanout_msg in He. by rewrite He.
    + done.
Qed.

Lemma accepted_join_effect_witness :
  reachable demo /\ peers demo !! "C" = Some (getPeer demo "C") /\
  joinTarget (joinMsg "R1" "k1") ≠ "" /\
  rooms (exec (joinRoom "C" (joinMsg "R1" "k1")) demo) !! "R1"
  = Some (mkRoom "k1" ["A"; "B"; "C"]).
Proof.
  split; [by_run demoEvents|]. split; [vm_compute; reflexivity|].
  split; [vm_compute; discriminate|].
  destruct (accepted_join_effect demo "C" (getPeer demo "C") (joinMsg "R1" "k1"))
    as (_ & Hroom & _).
  - by_run demoEvents.
  - vm_compute; reflexivity.
  - vm_compute; discriminate.
  - intros room Hroom. vm_compute in Hroom. injection Hroom as <-.
    right. reflexivity.
  - vm_compute in Hroom. vm_compute. exact Hroom.
Defined.

(** X6. A join for the room the peer is already in, when accepted, keeps
    the member map of the room as it is, order included, and every other
    room untouched; it sends no peer-left notice, and sends the welcome and
    the peer-joined notices again. *)
Theorem rejoin_same_room (st : State) (pid : string) (p : Peer) (msg : Msg)
    (Hreach : reachable st) (Hp : peers st !! pid = Some p)
    (Hsame : p_roomId p = Some (joinTarget msg))
    (Hok : forall room, rooms st !! joinTarget msg = Some room ->
             keyHash room = "" \/ keyHash room = joinKey msg) :
  let rid := joinTarget msg in
  let st' := exec (joinRoom pid msg) st in
  let others := filter (fun m => m ≠ pid) (members st rid) in
  rooms st' = alter (fun r => mkRoom (joinKey msg) (r_peers r)) rid (rooms st) /\
  members st' rid = members st rid /\
  wire st' = wire st
    ++ mkSend pid
         (Welcome pid rid (map (asPeerInfo st) others)
            (displayName (p_name p)) (deviceName (p_name p)))
         (isOpen st pid)
    :: (if isOpen st pid
        then fanout st (PeerJoined (mkPeerInfo pid (joinRtc msg) (p_name p))) others
        else []).
Proof.
  intros rid st' others. pose proof (reachable_Inv st Hreach) as Hinv.
  destruct (inv_joined _ _ Hinv _ _ _ Hp Hsame) as (room & Hroom & Hin).
  pose proof (inv_rid _ _ Hinv _ _ Hroom) as Hrid.
  destruct (joinRoom_accepted st pid p msg Hinv Hp Hrid
              (rejects_false _ _ _ Hok)) as (_ & Hroom' & Hwire & _).
  fold rid st' in Hroom', Hwire. fold rid in Hroom, Hsame.
  assert (Hmem : members st rid = r_peers room) by (unfold members; by rewrite Hroom).
  assert (Hset : peersSet pid (members st rid) = members st rid).
  { unfold peersSet. rewrite Hmem. by rewrite bool_decide_eq_true_2. }
  rewrite Hset in Hroom'. split_and!.
  - apply map_eq. intros r. rewrite lookup_alter.
    destruct (decide (rid = r)) as [<-|Hne].
    + rewrite Hroom', Hroom. cbn. by rewrite Hmem.
    + apply joinRoom_rooms_frame; [done|].
      rewrite (getPeer_lookup _ _ _ Hp), Hsame. congruence.
  - unfold members at 1. by rewrite Hroom'.
  - rewrite Hwire. unfold joinSends. fold rid.
    rewrite (getPeer_lookup _ _ _ Hp), Hsame.
    rewrite bool_decide_eq_true_2 by done. by rewrite andb_false_r.
Qed.

Lemma rejoin_same_room_witness :
  reachable demo /\ peers demo !! "A" = Some (getPeer demo "A") /\
  p_roomId (getPeer demo "A") = Some (joinTarget (joinMsg "R1" "k1")) /\
  members (exec (joinRoom "A" (joinMsg "R1" "k1")) demo) "R1" = members demo "R1".
Proof.
  split; [by_run demoEvents|]. split; [vm_compute; reflexivity|].
  split; [vm_compute; reflexivity|].
  apply (rejoin_same_room demo "A" (getPeer demo "A") (joinMsg "R1" "k1")).
  - by_run demoEvents.
  - vm_compute; reflexivity.
  - vm_compute; reflexivity.
  - intros room Hroom. vm_compute in Hroom. injection Hroom as <-.
    right. reflexivity.
Defined.

(** ** Rooms without a secret *)

Lemma joinKey_empty msg : joinKey msg = "" <-> truthy (m_roomKeyHash msg) = false.
Proof.
  unfold joinKey, js_or.
  destruct (m_roomKeyHash msg) as [| |b|s]; cbn; try done.
  - by destruct b.
  - destruct (String.eqb_spec s ""); cbn; split; congruence.
Qed.

(** X7. A join that presents no key (the field missing, [null], [false] or
    empty) to a room without a secret, or to a room that does not exist
    yet, is accepted and leaves the room without a secret: any key, and
    no key, is accepted there afterwards. *)
Theorem keyless_join_stays_keyless (st : State) (pid : string) (p : Peer)
    (msg : Msg)
    (Hreach : reachable st) (Hp : peers st !! pid = Some p)
    (Hrid : joinTarget msg ≠ "")
    (Hempty : forall room, rooms st !! joinTarget msg = Some room ->
                keyHash room = "")
    (Hkey : truthy (m_roomKeyHash msg) = false) :
  let rid := joinTarget msg in
  let st' := exec (joinRoom pid msg) st in
  keyOf st' rid = Some "" /\
  (pid ∈ members st' rid) /\
  (forall k, rejects rid k st' = false).
Proof.
  intros rid st'. pose proof (reachable_Inv st Hreach) as Hinv.
  apply joinKey_empty in Hkey.
  assert (Hok : forall room, rooms st !! joinTarget msg = Some room ->
             keyHash room = "" \/ keyHash room = joinKey msg)
    by (intros room Hroom; left; by apply Hempty).
  destruct (joinRoom_accepted st pid p msg Hinv Hp Hrid
              (rejects_false _ _ _ Hok)) as (_ & Hroom' & _).
  fold rid st' in Hroom'. rewrite Hkey in Hroom'.
  unfold keyOf, members, rejects. rewrite Hroom'. cbn. split_and!; try done.
  apply peersSet_elem. by right.
Qed.

Lemma keyless_join_stays_keyless_witness :
  reachable demo /\ peers demo !! "A" = Some (getPeer demo "A") /\
  keyOf (exec (joinRoom "A"
           (mkMsg (JStr "join") (JStr "R9") JNull JUndefined JUndefined None None))
           demo) "R9" = Some "".
Proof.
  split; [by_run demoEvents|]. split; [vm_compute; reflexivity|].
  apply (keyless_join_stays_keyless demo "A" (getPeer demo "A")
    (mkMsg (JStr "join") (JStr "R9") JNull JUndefined JUndefined None None)).
  - by_run demoEvents.
  - vm_compute; reflexivity.
  - vm_compute; discriminate.
  - intros room Hroom. vm_compute in Hroom. discriminate.
  - reflexivity.
Defined.

(** ** The key a member got in with *)

Lemma keyOf_joinRoom_ne pid msg st r :
  r ≠ joinTarget msg ->
  keyOf (exec (joinRoom pid msg) st) r = keyOf st r \/
  keyOf (exec (joinRoom pid msg) st) r = None.
Proof.
  intros Hne. unfold exec.
  destruct (decide (joinTarget msg = "")) as [Hdrop|Hrid].
  { rewrite joinRoom_dropped by done. by left. }
  rewrite joinRoom_eq by done.
  destruct (rejects (joinTarget msg) (joinKey msg) st).
  { rewrite send_eq. by left. }
  set (rid := joinTarget msg) in *. set (key := joinKey msg).
  destruct (greet_state pid rid
    (enter pid rid key (joinRtc msg) (vacate pid rid (resolved rid key st))))
    as [es ->].
  rewrite keyOf_addWire, keyOf_enter.
  destruct (keyOf_vacate pid rid (resolved rid key st) r) as [-> | ->];
    [|by right].
  left. unfold keyOf. by rewrite resolved_rooms_ne.
Qed.

Lemma KeyInv_same st st' :
  peers st' = peers st -> rooms st' = rooms st -> KeyInv st -> KeyInv st'.
Proof. intros Hp Hr H. unfold KeyInv. by rewrite Hp, Hr. Qed.

Lemma KeyInv_leaveRoom pid st :
  KeyInv st -> KeyInv (exec (leaveRoom pid) st).
Proof.
  intros Hk. unfold exec.
  destruct (leaveRoom_cases pid st) as [-> | (old & room & Hold & _ & Hroom & ->)];
    [done|]. cbn [snd].
  intros q pq r room' Hq Hr Hroom'.
  rewrite leftState_peers, lookup_insert in Hq.
  destruct (decide (pid = q)) as [<-|Hne].
  { injection Hq as <-. done. }
  destruct (keyOf_leftState pid old room st r Hroom) as [Hkey|Hkey];
    unfold keyOf in Hkey; rewrite Hroom' in Hkey; [|done].
  destruct (rooms st !! r) as [room0|] eqn:Hroom0; [|done].
  cbn in Hkey. injection Hkey as Hkey. rewrite Hkey.
  by apply (Hk q pq r room0).
Qed.

Lemma KeyInv_joinRoom pid p msg st :
  Inv st -> peers st !! pid = Some p ->
  KeyInv st -> KeyInv (exec (joinRoom pid msg) st).
Proof.
  intros Hinv Hp Hk.
  destruct (decide (joinTarget msg = "")) as [Hdrop|Hrid].
  { unfold exec. by rewrite joinRoom_dropped. }
  destruct (rejects (joinTarget msg) (joinKey msg) st) eqn:Hacc.
  { unfold exec. rewrite joinRoom_eq, Hacc, send_eq by done.
    by apply (KeyInv_same st). }
  destruct (joinRoom_accepted st pid p msg Hinv Hp Hrid Hacc)
    as (Hpeers & Hroom & _).
  set (rid := joinTarget msg) in *. set (key := joinKey msg) in *.
  intros q pq r room' Hq Hr Hroom'.
  rewrite Hpeers, lookup_insert in Hq.
  destruct (decide (pid = q)) as [<-|Hne].
  { injection Hq as <-. cbn in Hr. injection Hr as <-.
    rewrite Hroom in Hroom'. injection Hroom' as <-. by left. }
  destruct (decide (r = rid)) as [->|Hdiff].
  - rewrite Hroom in Hroom'. injection Hroom' as <-. cbn.
    destruct (inv_joined _ _ Hinv _ _ _ Hq Hr) as (room0 & Hroom0 & _).
    destruct (Hk q pq rid room0 Hq Hr Hroom0) as [Hkq | Hkq]; [|by right].
    unfold rejects in Hacc. rewrite Hroom0 in Hacc.
    destruct (nonEmpty (keyHash room0)) eqn:Hne0; cbn in Hacc.
    + apply negb_false_iff, String.eqb_eq in Hacc. left. congruence.
    + apply nonEmpty_false in Hne0. right. congruence.
  - destruct (keyOf_joinRoom_ne pid msg st r Hdiff) as [Hkey|Hkey];
      unfold keyOf in Hkey; rewrite Hroom' in Hkey; [|done].
    destruct (rooms st !! r) as [room0|] eqn:Hroom0; [|done].
    cbn in Hkey. injection Hkey as Hkey. rewrite Hkey.
    by apply (Hk q pq r room0).
Qed.

Lemma KeyInv_onMessage pid p msg st :
  Inv st -> peers st !! pid = Some p ->
  KeyInv st -> KeyInv (exec (onMessage pid msg) st).
Proof.
  intros Hinv Hp Hk. unfold onMessage.
  destruct (m_type msg) as [| |b|t]; try done.
  destruct (String.eqb t "join"); [by eapply KeyInv_joinRoom|].
  destruct (String.eqb t "signal").
  { destruct (relaySignal_state pid msg st) as [es ->]. by apply (KeyInv_same st). }
  destruct (String.eqb t "disconnect"); [by apply KeyInv_leaveRoom|].
  by destruct (String.eqb t "pong").
Qed.

Lemma KeyInv_handle e st :
  enabled e st = true -> Inv st -> KeyInv st -> KeyInv (handle e st).
Proof.
  intros Hen Hinv Hk. destruct e as [pid ra rn rd|pid f|pid|pid|pid]; cbn [handle].
  - rewrite fetch_upgrade. cbn [snd].
    cbn in Hen. rewrite !andb_true_iff in Hen. destruct Hen as [[[[_ Hfresh] _] _] _].
    apply bool_decide_eq_true in Hfresh.
    intros q pq r room Hq Hr Hroom. cbn in Hq, Hroom.
    rewrite lookup_insert in Hq. destruct (decide (pid = q)) as [<-|Hne].
    + injection Hq as <-. done.
    + by apply (Hk q pq r room).
  - cbn in Hen. apply bool_decide_eq_true in Hen as [p Hp].
    destruct f as [| |msg].
    + unfold exec. rewrite onSocketMessage_eq, send_eq. by apply (KeyInv_same st).
    + unfold exec. rewrite onSocketMessage_eq, send_eq. by apply (KeyInv_same st).
    + destruct (onSocketMessage_state pid msg st) as [es ->].
      apply (KeyInv_same (exec (onMessage pid msg) st)); [done|done|].
      by eapply KeyInv_onMessage.
  - by apply KeyInv_leaveRoom.
  - by apply KeyInv_leaveRoom.
  - cbn in Hen. apply bool_decide_eq_true in Hen as [p Hp].
    intros q pq r room Hq Hr Hroom. unfold updPeer in Hq. cbn in Hq, Hroom.
    rewrite lookup_insert, (getPeer_lookup _ _ _ Hp) in Hq.
    destruct (decide (pid = q)) as [<-|Hne].
    + injection Hq as <-. cbn in *. by apply (Hk pid p r room).
    + by apply (Hk q pq r room).
Qed.

(** X8. In every reachable state the key a member presented when it
    joined, which its record keeps, is the secret of its room or is empty:
    nobody is in a room on a key other than the room's, and the members
    with an empty key are those that came in while the room had no
    secret. *)
Theorem member_key_matches (st : State) (Hreach : reachable st) :
  forall pid p rid room,
    peers st !! pid = Some p -> p_roomId p = Some rid ->
    rooms st !! rid = Some room ->
    p_roomKeyHash p = keyHash room \/ p_roomKeyHash p = "".
Proof.
  induction Hreach as [|st e Hreach IH Hen].
  - intros pid p rid room Hp. cbn in Hp. by rewrite lookup_empty in Hp.
  - apply KeyInv_handle; [done | by apply reachable_Inv | exact IH].
Qed.

Lemma member_key_matches_witness :
  reachable demo /\
  forall pid p rid room,
    peers demo !! pid = Some p -> p_roomId p = Some rid ->
    rooms demo !! rid = Some room ->
    p_roomKeyHash p = keyHash room \/ p_roomKeyHash p = "".
Proof.
  split; [by_run demoEvents | apply (member_key_matches demo); by_run demoEvents].
Defined.

(** ** Leave and join, one after the other *)

Lemma peersDelete_fresh pid l : pid ∉ l -> peersDelete pid (l ++ [pid]) = l.
Proof.
  intros Hnot. unfold peersDelete.
  rewrite filter_app, filter_cons, decide_False by (intros ?; done).
  rewrite filter_nil, app_nil_r.
  induction l as [|a l IH]; [done|].
  apply not_elem_of_cons in Hnot as [Hne Hnot].
  rewrite filter_cons, decide_True by done. by rewrite IH.
Qed.

(** X9. The secret of a room goes with the room.  When the only member of
    a room leaves, the room is removed, and a join for the same room id
    afterwards is accepted with any key, which becomes the secret of the
    new room. *)
Theorem secret_dies_with_room (st : State) (pid : string) (p : Peer)
    (q : string) (pq : Peer) (msg : Msg) (room : Room)
    (Hreach : reachable st) (Hp : peers st !! pid = Some p)
    (Hq : peers st !! q = Some pq)
    (Hrid : p_roomId p = Some (joinTarget msg))
    (Hroom : rooms st !! joinTarget msg = Some room)
    (Hlast : r_peers room = [pid]) :
  let rid := joinTarget msg in
  let st1 := exec (leaveRoom pid) st in
  let st2 := exec (joinRoom q msg) st1 in
  rooms st1 !! rid = None /\
  rooms st2 !! rid = Some (mkRoom (joinKey msg) [q]).
Proof.
  intros rid st1 st2. pose proof (reachable_Inv st Hreach) as Hinv.
  pose proof (inv_rid _ _ Hinv _ _ Hroom) as Hne. fold rid in Hrid, Hroom, Hne.
  assert (Hr : p_roomId (getPeer st pid) = Some rid)
    by by rewrite (getPeer_lookup _ _ _ Hp).
  assert (Hst1 : st1 = leftState pid rid room st).
  { unfold st1, exec. by rewrite (leaveRoom_joined _ _ _ _ Hr Hne Hroom). }
  assert (Hgone : rooms st1 !! rid = None).
  { assert (Hrest : peersDelete pid [pid] = []).
    { unfold peersDelete. rewrite filter_cons.
      by destruct (decide (pid ≠ pid)). }
    rewrite Hst1. unfold leftState. cbn [rooms]. rewrite Hlast, Hrest.
    rewrite decide_True by done. apply lookup_delete_eq. }
  split; [done|].
  assert (Hinv1 : Inv st1) by (apply Inv_leaveRoom; [by eexists | done]).
  assert (Hq1 : is_Some (peers st1 !! q)).
  { rewrite Hst1, leftState_peers, lookup_insert.
    destruct (decide (pid = q)); by eexists. }
  destruct Hq1 as [pq1 Hq1].
  assert (Hacc : rejects rid (joinKey msg) st1 = false)
    by (unfold rejects; by rewrite Hgone).
  destruct (joinRoom_accepted st1 q pq1 msg Hinv1 Hq1 Hne Hacc) as (_ & Hroom2 & _).
  fold rid st2 in Hroom2. rewrite Hroom2. unfold members. rewrite Hgone.
  unfold peersSet. rewrite bool_decide_eq_false_2; [done|]. apply not_elem_of_nil.
Qed.

Lemma secret_dies_with_room_witness :
  reachable demo /\
  rooms (exec (joinRoom "A" (joinMsg "R2" "other"))
           (exec (leaveRoom "C") demo)) !! "R2"
  = Some (mkRoom "other" ["A"]).
Proof.
  split; [by_run demoEvents|].
  apply (secret_dies_with_room demo "C" (getPeer demo "C") "A" (getPeer demo "A")
           (joinMsg "R2" "other") (mkRoom "k2" ["C"]));
    [by_run demoEvents | vm_compute; reflexivity | vm_compute; reflexivity
    | vm_compute; reflexivity | vm_compute; reflexivity | reflexivity].
Defined.

(** X10. Joining and leaving again undoes the membership.  For a peer that
    is in no room, an accepted join followed by a leave gives back the
    registry as it was, but for the secret of the room joined, which is
    now the key presented: a room made by the join is gone again, a room
    that was there has its members in their old order. *)
Theorem join_then_leave (st : State) (pid : string) (p : Peer) (msg : Msg)
    (Hreach : reachable st) (Hp : peers st !! pid = Some p)
    (Hfree : p_roomId p = None)
    (Hrid : joinTarget msg ≠ "")
    (Hok : forall room, rooms st !! joinTarget msg = Some room ->
             keyHash room = "" \/ keyHash room = joinKey msg) :
  let rid := joinTarget msg in
  let st2 := exec (leaveRoom pid) (exec (joinRoom pid msg) st) in
  rooms st2 = alter (fun r => mkRoom (joinKey msg) (r_peers r)) rid (rooms st) /\
  p_roomId (getPeer st2 pid) = None /\
  (forall r, members st2 r = members st r).
Proof.
  intros rid st2. pose proof (reachable_Inv st Hreach) as Hinv.
  destruct (joinRoom_accepted st pid p msg Hinv Hp Hrid
              (rejects_false _ _ _ Hok)) as (Hpeers & Hroom1 & _).
  fold rid in Hpeers, Hroom1, Hrid.
  set (st1 := exec (joinRoom pid msg) st) in *.
  assert (Hnot : pid ∉ members st rid).
  { unfold members. destruct (rooms st !! rid) as [room|] eqn:Hroom;
      [|apply not_elem_of_nil].
    intros Hin. destruct (inv_member _ _ Hinv _ _ _ Hroom Hin) as (p' & Hp' & Hr').
    congruence. }
  assert (Hset : peersSet pid (members st rid) = members st rid ++ [pid]).
  { unfold peersSet. by rewrite bool_decide_eq_false_2. }
  rewrite Hset in Hroom1.
  assert (Hr1 : p_roomId (getPeer st1 pid) = Some rid).
  { unfold getPeer. by rewrite Hpeers, lookup_insert_eq. }
  assert (Hst2 : st2 = leftState pid rid
            (mkRoom (joinKey msg) (members st rid ++ [pid])) st1).
  { unfold st2, exec. by rewrite (leaveRoom_joined _ _ _ _ Hr1 Hrid Hroom1). }
  assert (Hrooms : rooms st2
            = alter (fun r => mkRoom (joinKey msg) (r_peers r)) rid (rooms st)).
  { apply map_eq. intros r. rewrite lookup_alter.
    destruct (decide (rid = r)) as [<-|Hne].
    - rewrite Hst2. unfold leftState. cbn [rooms r_peers keyHash].
      rewrite (peersDelete_fresh pid _ Hnot). unfold members.
      destruct (rooms st !! rid) as [room|] eqn:Hroom; cbn.
      + rewrite decide_False by by apply (inv_nonempty _ _ Hinv rid room).
        by rewrite lookup_insert_eq.
      + rewrite decide_True by done. by rewrite lookup_delete_eq.
    - rewrite Hst2, leftState_rooms_ne by done.
      apply joinRoom_rooms_frame; [done|].
      by rewrite (getPeer_lookup _ _ _ Hp), Hfree. }
  split_and!; [done| |].
  - rewrite Hst2. unfold getPeer. by rewrite leftState_peers, lookup_insert_eq.
  - intros r. unfold members. rewrite Hrooms, lookup_alter.
    destruct (decide (rid = r)) as [<-|Hne]; [|done].
    by destruct (rooms st !! rid).
Qed.

Lemma join_then_leave_witness :
  reachable (exec (leaveRoom "C") demo) /\
  rooms (exec (leaveRoom "C")
           (exec (joinRoom "C" (joinMsg "R7" "k7")) (exec (leaveRoom "C") demo)))
  = rooms (exec (leaveRoom "C") demo).
Proof.
  assert (Hreach : reachable (exec (leaveRoom "C") demo)).
  { apply (run_reachable (demoEvents ++ [EvClose "C"]) init);
      [apply reachable_init | vm_compute; reflexivity]. }
  split; [exact Hreach|].
  destruct (join_then_leave (exec (leaveRoom "C") demo) "C"
              (getPeer (exec (leaveRoom "C") demo) "C") (joinMsg "R7" "k7"))
    as (Hrooms & _); [exact Hreach | vm_compute; reflexivity
    | vm_compute; reflexivity | vm_compute; discriminate | |].
  - intros room Hroom. vm_compute in Hroom. discriminate.
  - rewrite Hrooms. vm_compute. reflexivity.
Defined.

(** ** Who is sent anything *)

Lemma leaveRoom_sends pid st :
  exists es, wire (exec (leaveRoom pid) st) = wire st ++ es /\
    forall ev, ev ∈ es -> s_to ev ∈ ownRoom st pid /\ s_msg ev = PeerLeft pid.
Proof.
  unfold exec.
  destruct (leaveRoom_cases pid st) as [-> | (old & room & Hold & _ & Hroom & ->)].
  - exists []. rewrite app_nil_r. split; [done|]. by intros ev ?%not_elem_of_nil.
  - eexists. split; [done|]. intros ev Hev. split; [|by apply fanout_msg in Hev].
    apply fanout_to, peersDelete_elem in Hev as [Hev _].
    unfold ownRoom, members. by rewrite Hold, Hroom.
Qed.


Lemma relaySignal_sends pid msg st :
  exists es, exec (relaySignal pid msg) st = addWire es st /\
    length es <= 1 /\
    forall ev, ev ∈ es ->
      s_to ev ∈ ownRoom st pid /\ m_to msg = JStr (s_to ev) /\
      s_msg ev = Signal pid (m_sdp msg) (m_ice msg).
Proof.
  unfold exec, ownRoom, members. rewrite relaySignal_eq.
  assert (Hnil : exists es : list SendEvent, st = addWire es st /\
    length es <= 1 /\
    forall ev, ev ∈ es ->
      s_to ev ∈ match p_roomId (getPeer st pid) with
                | Some rid => match rooms st !! rid with
                              | Some room => r_peers room
                              | None => []
                              end
                | None => []
                end /\ m_to msg = JStr (s_to ev) /\
      s_msg ev = Signal pid (m_sdp msg) (m_ice msg)).
  { exists []. rewrite addWire_nil. split; [done|]. split; [cbn; lia|].
    by intros ev ?%not_elem_of_nil. }
  destruct (p_roomId (getPeer st pid)) as [rid|]; [|done].
  destruct (rooms st !! rid) as [room|]; [|done].
  destruct (m_to msg) as [| |b|target]; try done.
  destruct (nonEmpty rid); cbn [andb]; [|done].
  case_bool_decide as Hin; [|done].
  rewrite send_eq. eexists. split; [done|]. split; [cbn; lia|].
  intros ev ->%list_elem_of_singleton. done.
Qed.






(** ** What the others are sent *)

Lemma joinSends_about st pid msg ev :
  ev ∈ joinSends st pid msg -> s_to ev = pid \/ aboutPeer pid (s_msg ev).
Proof.
  unfold joinSends. rewrite elem_of_app, elem_of_cons. intros [Hev | [-> | Hev]].
  - right. destruct (_ && _); [|by apply not_elem_of_nil in Hev].
    apply fanout_msg in Hev. by rewrite Hev.
  - by left.
  - right. destruct (isOpen st pid); [|by apply not_elem_of_nil in Hev].
    apply fanout_msg in Hev. by rewrite Hev.
Qed.

Lemma onMessage_about pid p msg st :
  Inv st -> peers st !! pid = Some p ->
  exists es, wire (exec (onMessage pid msg) st) = wire st ++ es /\
    forall ev, ev ∈ es -> s_to ev = pid \/ aboutPeer pid (s_msg ev).
Proof.
  intros Hinv Hp.
  assert (Hnil : exists es : list SendEvent, wire st = wire st ++ es /\
    forall ev, ev ∈ es -> s_to ev = pid \/ aboutPeer pid (s_msg ev)).
  { exists []. rewrite app_nil_r. split; [done|]. by intros ev ?%not_elem_of_nil. }
  unfold onMessage.
  destruct (m_type msg) as [| |b|t]; try done.
  destruct (String.eqb t "join").
  { destruct (decide (joinTarget msg = "")) as [Hdrop|Hrid].
    { unfold exec. by rewrite joinRoom_dropped. }
    destruct (rejects (joinTarget msg) (joinKey msg) st) eqn:Hacc.
    { unfold exec. rewrite joinRoom_eq, Hacc, send_eq by done.
      eexists. split; [done|]. intros ev ->%list_elem_of_singleton. by left. }
    destruct (joinRoom_accepted st pid p msg Hinv Hp Hrid Hacc) as (_ & _ & Hw & _).
    exists (joinSends st pid msg). split; [done|]. apply joinSends_about. }
  destruct (String.eqb t "signal").
  { destruct (relaySignal_sends pid msg st) as (es & -> & _ & Hes).
    exists es. split; [done|]. intros ev Hev. right.
    destruct (Hes ev Hev) as (_ & _ & ->). done. }
  destruct (String.eqb t "disconnect").
  { destruct (leaveRoom_sends pid st) as (es & Hw & Hes).
    exists es. split; [done|]. intros ev Hev. right.
    destruct (Hes ev Hev) as (_ & ->). done. }
  by destruct (String.eqb t "pong").
Qed.

(** X13. What the others are sent is about the sender.  Of the sends the
    worker makes in answer to an event of a connection, those to other
    connections are peer-left and peer-joined notices carrying that
    connection's id and signals tagged with that connection's id as sender:
    the tag is set by the worker, never taken from the message, and the
    welcome, the rejection and the error notice go to nobody else. *)
Theorem others_hear_about_sender (st : State) (pid : string) (p : Peer)
    (e : Event)
    (Hreach : reachable st) (Hp : peers st !! pid = Some p)
    (He : (exists f, e = EvMessage pid f) \/ e = EvClose pid \/ e = EvError pid) :
  exists es, wire (handle e st) = wire st ++ es /\
    forall ev, ev ∈ es -> s_to ev ≠ pid -> aboutPeer pid (s_msg ev).
Proof.
  pose proof (reachable_Inv st Hreach) as Hinv.
  assert (Hleave : exists es, wire (exec (leaveRoom pid) st) = wire st ++ es /\
    forall ev, ev ∈ es -> s_to ev ≠ pid -> aboutPeer pid (s_msg ev)).
  { destruct (leaveRoom_sends pid st) as (es & Hw & Hes).
    exists es. split; [done|]. intros ev Hev _.
    destruct (Hes ev Hev) as (_ & ->). done. }
  destruct He as [[f ->] | [-> | ->]]; cbn [handle]; [|done|done].
  destruct f as [| |msg].
  - unfold exec. rewrite onSocketMessage_eq, send_eq. eexists. split; [done|].
    intros ev ->%list_elem_of_singleton. done.
  - unfold exec. rewrite onSocketMessage_eq, send_eq. eexists. split; [done|].
    intros ev ->%list_elem_of_singleton. done.
  - destruct (onMessage_about pid p msg st Hinv Hp) as (es & Hw & Hes).
    unfold exec in *. rewrite onSocketMessage_eq.
    destruct (onMessage pid msg st) as [[a|] st1]; cbn [snd] in *.
    + exists es. split; [done|]. intros ev Hev Hne.
      by destruct (Hes ev Hev).
    + rewrite send_eq. cbn [snd addWire wire]. rewrite Hw, <- app_assoc.
      eexists. split; [done|].
      intros ev [Hev | ->%list_elem_of_singleton]%elem_of_app Hne.
      * by destruct (Hes ev Hev).
      * done.
Qed.

Lemma others_hear_about_sender_witness :
  reachable demo /\ peers demo !! "B" = Some (getPeer demo "B") /\
  exists es,
    wire (handle (EvClose "B") demo) = wire demo ++ es /\
    forall ev, ev ∈ es -> s_to ev ≠ "B" -> aboutPeer "B" (s_msg ev).
Proof.
  split; [by_run demoEvents|]. split; [vm_compute; reflexivity|].
  apply (others_hear_about_sender demo "B" (getPeer demo "B"));
    [by_run demoEvents | vm_compute; reflexivity | right; left; reflexivity].
Defined.

(** ** The registry and new connections *)

(** X14. [getOrCreateRoom] returns the room the registry holds under the
    id when it is done.  A room that is there is returned as it is and the
    key passed is ignored; a room that is not is made with the key passed
    and no member.  No other room, no peer and no send is touched, and a
    second call, with any key, returns the same room and changes
    nothing. *)
Theorem getOrCreateRoom_registry (st : State) (rid key : string) :
  exists room st',
    getOrCreateRoom rid key st = (Normal room, st') /\
    rooms st' !! rid = Some room /\
    (forall r, r ≠ rid -> rooms st' !! r = rooms st !! r) /\
    peers st' = peers st /\ wire st' = wire st /\
    (forall room0, rooms st !! rid = Some room0 -> room = room0 /\ st' = st) /\
    (rooms st !! rid = None -> room = mkRoom key []) /\
    (forall key', getOrCreateRoom rid key' st' = (Normal room, st')).
Proof.
  unfold getOrCreateRoom. destruct (rooms st !! rid) as [room0|] eqn:Hroom.
  - exists room0, st. split_and!; try done.
    + by intros room1 [= <-].
    + intros key'. by rewrite Hroom.
  - exists (mkRoom key []), (setRooms (insert rid (mkRoom key [])) st).
    unfold setRooms. cbn [rooms peers wire]. split_and!; try done.
    + apply lookup_insert_eq.
    + intros r Hr. by apply lookup_insert_ne.
    + intros key'. by rewrite lookup_insert_eq.
Qed.

(** X15. A new connection starts in no room.  The upgrade of a request
    with a fresh id adds one peer object, Unjoined, its socket open, its
    key empty and its capability flag set; it is in the member map of no
    room, the other peers, the rooms and the log of sends are as they
    were.  A request that is no websocket upgrade changes nothing. *)
Theorem connect_starts_unjoined (st : State) (pid : string) (ra rn rd : nat)
    (Hreach : reachable st)
    (Hen : enabled (EvConnect pid ra rn rd) st = true) :
  let st' := handle (EvConnect pid ra rn rd) st in
  peers st' !! pid = Some (mkPeer SockOpen None "" (randomName ra rn rd) true) /\
  (forall q, q ≠ pid -> peers st' !! q = peers st !! q) /\
  rooms st' = rooms st /\ wire st' = wire st /\
  (forall rid, pid ∉ members st' rid) /\
  (forall upgrade, upgrade ≠ Some "websocket" ->
     fetch upgrade pid ra rn rd st = (Running200, st)).
Proof.
  intros st'. pose proof (reachable_Inv st Hreach) as Hinv.
  cbn in Hen. rewrite !andb_true_iff in Hen.
  destruct Hen as [[[[_ Hfresh] _] _] _]. apply bool_decide_eq_true in Hfresh.
  unfold st'. cbn [handle]. rewrite fetch_upgrade. cbn [snd].
  unfold setPeers. cbn [peers rooms wire]. split_and!; try done.
  - apply lookup_insert_eq.
  - intros q Hq. by apply lookup_insert_ne.
  - intros rid. unfold members. cbn [rooms].
    destruct (rooms st !! rid) as [room|] eqn:Hroom; [|apply not_elem_of_nil].
    intros Hin. destruct (inv_member _ _ Hinv _ _ _ Hroom Hin) as (p' & Hp' & _).
    congruence.
  - intros upgrade Hne. unfold fetch. by rewrite bool_decide_eq_false_2.
Qed.

Lemma connect_starts_unjoined_witness :
  reachable demo /\ enabled (EvConnect "D" 3 3 0) demo = true /\
  peers (handle (EvConnect "D" 3 3 0) demo) !! "D"
  = Some (mkPeer SockOpen None "" (randomName 3 3 0) true).
Proof.
  split; [by_run demoEvents|]. split; [vm_compute; reflexivity|].
  apply (connect_starts_unjoined demo "D" 3 3 0);
    [by_run demoEvents | vm_compute; reflexivity].
Defined.

(** X16. A peer is in at most one room, and at most once in it.  In every
    reachable state no peer id is a key of the member maps of two rooms, no
    member map holds a key twice, and every key of a member map is the
    non-empty id of a connection the worker has. *)
Theorem one_room_per_peer (st : State) (Hreach : reachable st) :
  (forall pid r1 r2 room1 room2,
     rooms st !! r1 = Some room1 -> pid ∈ r_peers room1 ->
     rooms st !! r2 = Some room2 -> pid ∈ r_peers room2 -> r1 = r2) /\
  (forall rid room, rooms st !! rid = Some room -> NoDup (r_peers room)) /\
  (forall rid room pid, rooms st !! rid = Some room -> pid ∈ r_peers room ->
     pid ≠ "" /\ is_Some (peers st !! pid)).
Proof.
  pose proof (reachable_Inv st Hreach) as Hinv. split_and!.
  - intros pid r1 r2 room1 room2 H1 Hin1 H2 Hin2.
    destruct (inv_member _ _ Hinv _ _ _ H1 Hin1) as (p1 & Hp1 & Hr1).
    destruct (inv_member _ _ Hinv _ _ _ H2 Hin2) as (p2 & Hp2 & Hr2).
    congruence.
  - apply (inv_nodup _ _ Hinv).
  - intros rid room pid Hroom Hin.
    destruct (inv_member _ _ Hinv _ _ _ Hroom Hin) as (p & Hp & _).
    split; [by eapply (inv_ids _ _ Hinv) | by eexists].
Qed.

Lemma one_room_per_peer_witness :
  reachable demo /\
  forall rid room, rooms demo !! rid = Some room -> NoDup (r_peers room).
Proof.
  split; [by_run demoEvents | apply (one_room_per_peer demo); by_run demoEvents].
Defined.

(** ** Several joins in a row *)

Lemma joinAll_members pids : forall msg st,
  Inv st -> joinTarget msg ≠ "" ->
  (forall room, rooms st !! joinTarget msg = Some room ->
     keyHash room = "" \/ keyHash room = joinKey msg) ->
  NoDup pids ->
  (forall q, q ∈ pids -> exists pq, peers st !! q = Some pq /\ p_roomId pq = None) ->
  Inv (joinAll pids msg st) /\
  members (joinAll pids msg st) (joinTarget msg)
  = members st (joinTarget msg) ++ pids /\
  (pids ≠ [] -> keyOf (joinAll pids msg st) (joinTarget msg) = Some (joinKey msg)).
Proof.
  induction pids as [|q rest IH]; intros msg st Hinv Hrid Hok Hnd Hfree.
  - cbn. by rewrite app_nil_r.
  - apply NoDup_cons in Hnd as [Hq Hnd].
    destruct (Hfree q) as (pq & Hpq & Hnone); [left|].
    destruct (joinRoom_accepted st q pq msg Hinv Hpq Hrid
                (rejects_false _ _ _ Hok)) as (_ & Hroom1 & _).
    set (rid := joinTarget msg) in *.
    set (st1 := exec (joinRoom q msg) st) in *.
    assert (Hnot : q ∉ members st rid).
    { unfold members. destruct (rooms st !! rid) as [room|] eqn:Hroom;
        [|apply not_elem_of_nil].
      intros Hin. destruct (inv_member _ _ Hinv _ _ _ Hroom Hin) as (p' & Hp' & Hr').
      congruence. }
    assert (Hm1 : members st1 rid = members st rid ++ [q]).
    { unfold members at 1. rewrite Hroom1. cbn. unfold peersSet.
      by rewrite bool_decide_eq_false_2. }
    assert (Hinv1 : Inv st1) by (apply Inv_joinRoom; [by eexists | done]).
    destruct (IH msg st1) as (Hinv2 & Hm2 & Hk2); try done.
    + fold rid. rewrite Hroom1. intros room [= <-]. by right.
    + intros q' Hq'. destruct (Hfree q') as (pq' & Hpq' & Hnone'); [by right|].
      exists pq'. split; [|done]. unfold st1.
      rewrite joinRoom_peers_frame; [done|]. intros ->. done.
    + change (joinAll (q :: rest) msg st) with (joinAll rest msg st1).
      fold rid in Hm2, Hk2. split_and!; [done| |].
      * by rewrite Hm2, Hm1, <- app_assoc.
      * intros _. destruct rest as [|q' rest']; [|by apply Hk2].
        cbn. unfold keyOf. fold st1. by rewrite Hroom1.
Qed.

(** X17. Members are kept in the order they joined.  When peers that are
    in no room send, one after the other, a join for the same room with a
    key the room accepts, they are all accepted and the member map of the
    room is what it was followed by these peers in the order of their
    joins, which is the order the rosters of later welcomes list them in;
    the secret of the room is then the key they presented. *)
Theorem joins_in_order (st : State) (pids : list string) (msg : Msg)
    (Hreach : reachable st) (Hrid : joinTarget msg ≠ "")
    (Hok : forall room, rooms st !! joinTarget msg = Some room ->
             keyHash room = "" \/ keyHash room = joinKey msg)
    (Hnd : NoDup pids)
    (Hfree : forall q, q ∈ pids ->
               exists pq, peers st !! q = Some pq /\ p_roomId pq = None) :
  members (joinAll pids msg st) (joinTarget msg)
  = members st (joinTarget msg) ++ pids /\
  (pids ≠ [] -> keyOf (joinAll pids msg st) (joinTarget msg) = Some (joinKey msg)).
Proof.
  destruct (joinAll_members pids msg st) as (_ & Hm & Hk); try done.
  by apply reachable_Inv.
Qed.

Lemma joins_in_order_witness :
  members (joinAll ["C"; "A"; "B"] (joinMsg "R5" "k5") (handleAll
             [EvConnect "A" 0 0 0; EvConnect "B" 1 1 1; EvConnect "C" 2 2 2] init))
    "R5" = ["C"; "A"; "B"].
Proof.
  set (st := handleAll
    [EvConnect "A" 0 0 0; EvConnect "B" 1 1 1; EvConnect "C" 2 2 2] init).
  assert (Hreach : reachable st).
  { apply (run_reachable
      [EvConnect "A" 0 0 0; EvConnect "B" 1 1 1; EvConnect "C" 2 2 2] init);
      [apply reachable_init | vm_compute; reflexivity]. }
  destruct (joins_in_order st ["C"; "A"; "B"] (joinMsg "R5" "k5")) as (Hm & _).
  - exact Hreach.
  - vm_compute; discriminate.
  - intros room Hroom. vm_compute in Hroom. discriminate.
  - apply (bool_decide_unpack (NoDup ["C"; "A"; "B"])). vm_compute. exact I.
  - intros q Hq. exists (newPeer (randomName
      (if bool_decide (q = "A") then 0 else if bool_decide (q = "B") then 1 else 2)
      (if bool_decide (q = "A") then 0 else if bool_decide (q = "B") then 1 else 2)
      (if bool_decide (q = "A") then 0 else if bool_decide (q = "B") then 1 else 2))).
    apply list_elem_of_In in Hq. cbn in Hq.
    destruct Hq as [<- | [<- | [<- | []]]]; split; vm_compute; reflexivity.
  - refine (eq_trans Hm _). vm_compute. reflexivity.
Defined.
